(** * Silent Payments detection engine: shallow embedding and proofs

    Embedding of the silent-payment modules of the wallet:
    - [helpers/silent-payments/UTXORepository.ts] (the UTXO store),
    - the hex codec of Node's [Buffer] used by the store and the processor,
    - [helpers/silent-payments/TransactionProcessor.ts] ([process]),
    - [helpers/silent-payments/SilentPaymentKeyDerivation.ts] (key cache),
    - [helpers/silent-payments/IndexerHttpClient.ts] ([executeGet]) and
      [blue_modules/SilentPaymentIndexer.ts] ([scanBlocks],
      [scanBackwards], [getSilentBlocksRange]),
    - the wallet orchestration [HDSilentPaymentsWallet]
      ([processAndAddTransactions], [scanForPayments], ...).

    JavaScript numbers used as block heights, output values and counts are
    modelled as [Z]: they are integers far below 2^53 (satoshi amounts are
    below 2.1e15), where IEEE additions and comparisons are exact. *)

From Stdlib Require Import List Strings.String Strings.Ascii Strings.Byte ZArith Bool Lia Sorting.Sorted.
Import ListNotations.
Open Scope Z_scope.

(* ================================================================== *)
(** ** Hex codec of Node's [Buffer] *)

(** Value of one hexadecimal digit, either case (as [Buffer.from(s, 'hex')]
    accepts). *)
Definition hexval (c : ascii) : option N :=
  let n := N_of_ascii c in
  if ((48 <=? n) && (n <=? 57))%N then Some (n - 48)%N
  else if ((97 <=? n) && (n <=? 102))%N then Some (n - 87)%N
  else if ((65 <=? n) && (n <=? 70))%N then Some (n - 55)%N
  else None.

(** Lower-case digit of a nibble, as [buf.toString('hex')] prints it. *)
Definition hexdigit (n : N) : ascii :=
  if (n <? 10)%N then ascii_of_N (48 + n) else ascii_of_N (87 + n).

(** [Buffer.from(s, 'hex')]: decodes pairs of digits and stops at the first
    pair that is not hexadecimal; a trailing odd digit is dropped. *)
Fixpoint hex_decode (s : string) : list byte :=
  match s with
  | String a (String b rest) =>
      match hexval a, hexval b with
      | Some x, Some y =>
          match Byte.of_N (x * 16 + y) with
          | Some v => v :: hex_decode rest
          | None => []
          end
      | _, _ => []
      end
  | _ => []
  end.

(** [Buffer.from(bytes).toString('hex')]. *)
Fixpoint hex_encode (bs : list byte) : string :=
  match bs with
  | [] => EmptyString
  | b :: rest =>
      let n := Byte.to_N b in
      String (hexdigit (n / 16)) (String (hexdigit (n mod 16)) (hex_encode rest))
  end.

(* ================================================================== *)
(** ** Types ([helpers/silent-payments/types.ts]) *)

(** [SilentPaymentUTXO]: the runtime record, with the binary tweak. *)
Record SilentPaymentUTXO := mkUTXO {
  txid : string;
  vout : Z;
  value : Z;
  pubKey : string;
  blockHeight : Z;
  blockHash : string;
  tweak : list byte;
  isSpent : bool
}.

(** [SilentPaymentUTXOSerializable]: the persisted record, with the tweak
    hex-encoded. *)
Record SilentPaymentUTXOSerializable := mkUTXOSer {
  s_txid : string;
  s_vout : Z;
  s_value : Z;
  s_pubKey : string;
  s_blockHeight : Z;
  s_blockHash : string;
  tweakHex : string;
  s_isSpent : bool
}.

(* ================================================================== *)
(** ** [UTXORepository] *)

Module UTXORepository.

(** The two private arrays of the class. *)
Record t := mkRepo {
  utxos : list SilentPaymentUTXO;
  utxosSerializable : list SilentPaymentUTXOSerializable
}.

(** [new UTXORepository()] *)
Definition empty : t := mkRepo [] [].

(** The object literal pushed by [add]. *)
Definition to_serializable (utxo : SilentPaymentUTXO) : SilentPaymentUTXOSerializable :=
  mkUTXOSer (txid utxo) (vout utxo) (value utxo) (pubKey utxo)
    (blockHeight utxo) (blockHash utxo) (hex_encode (tweak utxo)) (isSpent utxo).

(** [add(utxo)]: returns whether the record was inserted, with the new
    state. *)
Definition add (utxo : SilentPaymentUTXO) (r : t) : bool * t :=
  let exists_ := existsb (fun u => String.eqb (txid u) (txid utxo) && Z.eqb (vout u) (vout utxo))
                         (utxos r) in
  if negb exists_ then
    (true, mkRepo (utxos r ++ [utxo]) (utxosSerializable r ++ [to_serializable utxo]))
  else (false, r).

(** [getAll()] *)
Definition getAll (r : t) : list SilentPaymentUTXO :=
  filter (fun u => negb (isSpent u)) (utxos r).

(** [getBalance()]: [filter] then [reduce((sum, utxo) => sum + utxo.value, 0)]. *)
Definition getBalance (r : t) : Z :=
  fold_left (fun sum u => sum + value u) (filter (fun u => negb (isSpent u)) (utxos r)) 0.

(** [getSerializable()] *)
Definition getSerializable (r : t) : list SilentPaymentUTXOSerializable :=
  utxosSerializable r.

(** The mapped record of [loadFromSerializable]: [{...utxo, tweak: ...}].
    (The spread also copies [tweakHex] onto the runtime object, a property
    that [SilentPaymentUTXO] does not declare and nothing reads.) *)
Definition from_serializable (s : SilentPaymentUTXOSerializable) : SilentPaymentUTXO :=
  mkUTXO (s_txid s) (s_vout s) (s_value s) (s_pubKey s)
    (s_blockHeight s) (s_blockHash s) (hex_decode (tweakHex s)) (s_isSpent s).

(** [loadFromSerializable(serializable)] *)
Definition loadFromSerializable (serializable : list SilentPaymentUTXOSerializable) (r : t) : t :=
  mkRepo (map from_serializable serializable) serializable.

(** [clear()] *)
Definition clear (r : t) : t := mkRepo [] [].

End UTXORepository.

(* ================================================================== *)
(** ** [TransactionProcessor] *)

(** [IndexerOutput] *)
Record IndexerOutput := mkOutput {
  transactionId : string;
  o_vout : Z;
  o_pubKey : string;
  o_value : Z;
  o_isSpent : bool
}.

(** [IndexerTransaction] *)
Record IndexerTransaction := mkIndexerTx {
  t_blockHeight : Z;
  t_blockHash : string;
  t_txid : string;
  scanTweak : string;
  outputs : list IndexerOutput
}.

Section TransactionProcessor.

(** [scanOutputsWithTweak] of [@silent-pay/core]: given the scan private
    key, the spend public key, the scan tweak and the candidate output keys,
    it returns the entries of its result [Map] (matched output key as hex,
    per-output tweak), in iteration order, or throws ([None]). *)
Variable scanOutputsWithTweak :
  list byte -> list byte -> list byte -> list (list byte) -> option (list (string * list byte)).

(** The keys read through [keyDerivation.getScanPrivateKey()] and
    [keyDerivation.getSpendPublicKey()]; [None] when deriving them throws. *)
Variable kd_keys : option (list byte * list byte).

(** The loop over [matchedOutputs.entries()], pushing onto [matchedUTXOs]. *)
Definition collect_matches (tx : IndexerTransaction)
    (matched : list (string * list byte)) : list SilentPaymentUTXO :=
  fold_left
    (fun matchedUTXOs (e : string * list byte) =>
       let '(outputPubKeyHex, tweakBuffer) := e in
       let xOnlyPubKey := substring 2 (String.length outputPubKeyHex - 2) outputPubKeyHex in
       match find (fun o => String.eqb (o_pubKey o) xOnlyPubKey) (outputs tx) with
       | Some output =>
           matchedUTXOs ++
             [mkUTXO (t_txid tx) (o_vout output) (o_value output) (o_pubKey output)
                (t_blockHeight tx) (t_blockHash tx) tweakBuffer (o_isSpent output)]
       | None => matchedUTXOs
       end)
    matched [].

(** The body of the [try] block; [None] is an exception thrown inside it. *)
Definition process_body (tx : IndexerTransaction) : option (list SilentPaymentUTXO) :=
  match kd_keys with
  | None => None
  | Some (scanPrivateKey, spendPublicKey) =>
      let scanTweak := hex_decode (scanTweak tx) in
      if negb (Nat.eqb (List.length scanTweak) 33) then Some []
      else
        let outputPubKeys :=
          map (fun output => hex_decode ("02" ++ o_pubKey output)) (outputs tx) in
        match scanOutputsWithTweak scanPrivateKey spendPublicKey scanTweak outputPubKeys with
        | None => None
        | Some matchedOutputs =>
            match matchedOutputs with
            | [] => Some []
            | _ => Some (collect_matches tx matchedOutputs)
            end
        end
  end.

(** [process(tx)]: the [catch] returns [matchedUTXOs], still empty at every
    point of the body that can throw. *)
Definition process (tx : IndexerTransaction) : list SilentPaymentUTXO :=
  match process_body tx with
  | Some l => l
  | None => []
  end.

End TransactionProcessor.

(* ================================================================== *)
(** ** [SilentPaymentKeyDerivation] *)

Module KeyDerivation.
Section KeyDerivation.

(** The [bip32] library and [encodeSilentPaymentAddress]: pure functions. *)
Variable BIP32Key : Type.
Variable fromSeed : list byte -> BIP32Key.
Variable derivePath : BIP32Key -> string -> BIP32Key.
Variable publicKey : BIP32Key -> list byte.
Variable privateKey : BIP32Key -> list byte.
Variable encodeSilentPaymentAddress : list byte -> list byte -> string.

Record t := mk {
  seed : list byte;
  scanKey : option BIP32Key;
  spendKey : option BIP32Key;
  silentPaymentAddress : option string
}.

(** [new SilentPaymentKeyDerivation(seed)] *)
Definition create (s : list byte) : t := mk s None None None.

Definition spendPath : string := "m/352'/0'/0'/0'/0".
Definition scanPath : string := "m/352'/0'/0'/1'/0".

(** [deriveKeys()] *)
Definition deriveKeys (k : t) : t :=
  match scanKey k, spendKey k with
  | Some _, Some _ => k
  | _, _ =>
      let silentPaymentRoot := fromSeed (seed k) in
      let spend := derivePath silentPaymentRoot spendPath in
      let scan := derivePath silentPaymentRoot scanPath in
      mk (seed k) (Some scan) (Some spend) (silentPaymentAddress k)
  end.

(** [this.scanKey!] / [this.spendKey!] after [deriveKeys()], where both are
    set. *)
Definition the_key (o : option BIP32Key) (k : t) : BIP32Key :=
  match o with Some x => x | None => fromSeed (seed k) end.

Definition getScanPrivateKey (k : t) : list byte * t :=
  let k' := deriveKeys k in (privateKey (the_key (scanKey k') k'), k').
Definition getSpendPrivateKey (k : t) : list byte * t :=
  let k' := deriveKeys k in (privateKey (the_key (spendKey k') k'), k').
Definition getScanPublicKey (k : t) : list byte * t :=
  let k' := deriveKeys k in (publicKey (the_key (scanKey k') k'), k').
Definition getSpendPublicKey (k : t) : list byte * t :=
  let k' := deriveKeys k in (publicKey (the_key (spendKey k') k'), k').

(** [getSilentPaymentAddress()]: the cache test is JavaScript truthiness, so
    a cached empty string is recomputed. *)
Definition getSilentPaymentAddress (k : t) : string * t :=
  match silentPaymentAddress k with
  | Some a => if negb (String.eqb a EmptyString) then (a, k) else
      let k' := deriveKeys k in
      let addr := encodeSilentPaymentAddress (publicKey (the_key (scanKey k') k'))
                    (publicKey (the_key (spendKey k') k')) in
      (addr, mk (seed k') (scanKey k') (spendKey k') (Some addr))
  | None =>
      let k' := deriveKeys k in
      let addr := encodeSilentPaymentAddress (publicKey (the_key (scanKey k') k'))
                    (publicKey (the_key (spendKey k') k')) in
      (addr, mk (seed k') (scanKey k') (spendKey k') (Some addr))
  end.

(** [clear()] *)
Definition clear (k : t) : t := mk (seed k) None None None.

(** Calls on one instance. *)
Inductive op := GetScanPriv | GetSpendPriv | GetScanPub | GetSpendPub | GetAddress | Clear.

Inductive out := OutBytes (b : list byte) | OutString (s : string) | OutUnit.

Definition step (o : op) (k : t) : out * t :=
  match o with
  | GetScanPriv => let '(b, k') := getScanPrivateKey k in (OutBytes b, k')
  | GetSpendPriv => let '(b, k') := getSpendPrivateKey k in (OutBytes b, k')
  | GetScanPub => let '(b, k') := getScanPublicKey k in (OutBytes b, k')
  | GetSpendPub => let '(b, k') := getSpendPublicKey k in (OutBytes b, k')
  | GetAddress => let '(s, k') := getSilentPaymentAddress k in (OutString s, k')
  | Clear => (OutUnit, clear k)
  end.

(** The results of a sequence of calls on one instance. *)
Fixpoint run (ops : list op) (k : t) : list out :=
  match ops with
  | [] => []
  | o :: rest => let '(r, k') := step o k in r :: run rest k'
  end.

(** What each call returns computed from the seed alone (specification
    side of the determinism property). *)
Definition from_seed (s : list byte) (o : op) : out :=
  let root := fromSeed s in
  let spend := derivePath root spendPath in
  let scan := derivePath root scanPath in
  match o with
  | GetScanPriv => OutBytes (privateKey scan)
  | GetSpendPriv => OutBytes (privateKey spend)
  | GetScanPub => OutBytes (publicKey scan)
  | GetSpendPub => OutBytes (publicKey spend)
  | GetAddress => OutString (encodeSilentPaymentAddress (publicKey scan) (publicKey spend))
  | Clear => OutUnit
  end.

End KeyDerivation.
End KeyDerivation.

(* ================================================================== *)
(** ** [IndexerHttpClient] and [SilentPaymentIndexer] *)

(** A completed HTTP exchange: the status and the decoded JSON body. *)
Record HttpResponse (A : Type) := mkResponse { status : Z; json : A }.
Arguments mkResponse {A}.
Arguments status {A}.
Arguments json {A}.

(** The [Error] thrown by [executeGet], by its cause. *)
Inductive FetchError := NetworkError | HttpError (code : Z).

(** [executeGet]: [None] is a rejected [fetch] (network failure, timeout);
    any status outside 200-299 ([!response.ok]), 429 included, throws. *)
Definition executeGet {A} (r : option (HttpResponse A)) : FetchError + A :=
  match r with
  | None => inl NetworkError
  | Some response =>
      if (200 <=? status response) && (status response <=? 299)
      then inr (json response)
      else inl (HttpError (status response))
  end.

(** [IndexerTransactionData] *)
Record IndexerTransactionData := mkTxData {
  id : string;
  d_blockHeight : Z;
  d_blockHash : string;
  d_scanTweak : string;
  d_outputs : list IndexerOutput
}.

(** The remote indexer, as the answers it gives: to
    [/silent-block/latest-height] and to [/transactions/height/:height]
    (the [transactions] array of the body; a missing array reads as
    empty, which the code treats alike). *)
Record Indexer := mkIndexer {
  latestHeightResponse : option (HttpResponse Z);
  transactionsResponse : Z -> option (HttpResponse (list IndexerTransactionData))
}.

Definition getLatestBlockHeight (idx : Indexer) : FetchError + Z :=
  executeGet (latestHeightResponse idx).

Definition getTransactionsByHeight (idx : Indexer) (height : Z)
    : FetchError + list IndexerTransactionData :=
  executeGet (transactionsResponse idx height).

Inductive Direction := Forward | Backward.

Section ScanBlocks.

Variable St : Type.
Variable idx : Indexer.

(** [shouldContinue] *)
Definition shouldContinue (direction : Direction) (endHeight h : Z) : bool :=
  match direction with
  | Forward => h <=? endHeight
  | Backward => endHeight <=? h
  end.

Definition increment (direction : Direction) : Z :=
  match direction with Forward => 1 | Backward => -1 end.

(** The outcome of a scan: the heights requested from the indexer, in
    order, the collected [allTransactions], and the state threaded through
    the [onBlockProcessed] callback. *)
Record ScanResult := mkScanResult {
  fetched : list Z;
  allTransactions : list IndexerTransactionData;
  cbState : St
}.

(** One iteration of the [for] loop of [scanBlocks] at [height]: the
    [try] block, a failed fetch being caught, logged and skipped. *)
Definition scan_body
    (onBlockProcessed : option (list IndexerTransactionData -> Z -> St -> St))
    (height : Z) (acc : ScanResult) : ScanResult :=
  let fetched' := fetched acc ++ [height] in
  match getTransactionsByHeight idx height with
  | inl _ => mkScanResult fetched' (allTransactions acc) (cbState acc)
  | inr transactions =>
      if negb (Nat.eqb (List.length transactions) 0) then
        match onBlockProcessed with
        | Some f => mkScanResult fetched' (allTransactions acc) (f transactions height (cbState acc))
        | None => mkScanResult fetched' (allTransactions acc ++ transactions) (cbState acc)
        end
      else mkScanResult fetched' (allTransactions acc) (cbState acc)
  end.

(** The [for] loop of [scanBlocks]; [fuel] bounds the number of iterations
    (see [scan_fuel]). *)
Fixpoint scan_loop (direction : Direction) (endHeight : Z)
    (onBlockProcessed : option (list IndexerTransactionData -> Z -> St -> St))
    (fuel : nat) (height : Z) (acc : ScanResult) : ScanResult :=
  match fuel with
  | O => acc
  | Datatypes.S fuel' =>
      if shouldContinue direction endHeight height then
        scan_loop direction endHeight onBlockProcessed fuel' (height + increment direction)
          (scan_body onBlockProcessed height acc)
      else acc
  end.

(** Number of iterations of the loop from [startHeight] to [endHeight]. *)
Definition scan_fuel (direction : Direction) (startHeight endHeight : Z) : nat :=
  match direction with
  | Forward => Z.to_nat (endHeight - startHeight + 1)
  | Backward => Z.to_nat (startHeight - endHeight + 1)
  end.

(** [scanBlocks(startHeight, endHeight, direction, onBlockProcessed)] *)
Definition scanBlocks (startHeight endHeight : Z) (direction : Direction)
    (onBlockProcessed : option (list IndexerTransactionData -> Z -> St -> St))
    (st : St) : ScanResult :=
  scan_loop direction endHeight onBlockProcessed (scan_fuel direction startHeight endHeight)
    startHeight (mkScanResult [] [] st).

(** [fromHeight ?? await this.getLatestBlockHeight()] *)
Definition resolveStart (fromHeight : option Z) : FetchError + Z :=
  match fromHeight with
  | Some h => inr h
  | None => getLatestBlockHeight idx
  end.

(** [scanBackwards(maxBlocks, fromHeight)] *)
Definition scanBackwards (maxBlocks : Z) (fromHeight : option Z) (st : St)
    : FetchError + ScanResult :=
  match resolveStart fromHeight with
  | inl e => inl e
  | inr startHeight =>
      let endHeight := Z.max 0 (startHeight - maxBlocks + 1) in
      inr (scanBlocks startHeight endHeight Backward None st)
  end.

(** [scanBackwardsWithCallback(maxBlocks, processTransactions, fromHeight)] *)
Definition scanBackwardsWithCallback (maxBlocks : Z)
    (processTransactions : list IndexerTransactionData -> Z -> St -> St)
    (fromHeight : option Z) (st : St) : FetchError + ScanResult :=
  match resolveStart fromHeight with
  | inl e => inl e
  | inr startHeight =>
      let endHeight := Z.max 0 (startHeight - maxBlocks + 1) in
      inr (scanBlocks startHeight endHeight Backward (Some processTransactions) st)
  end.

End ScanBlocks.

Arguments mkScanResult {St}.
Arguments fetched {St}.
Arguments allTransactions {St}.
Arguments cbState {St}.

(* ================================================================== *)
(** ** [HDSilentPaymentsWallet] (silent-payment part) *)

(** The global [defaultIndexer] is not initialised ([getDefaultIndexer]
    throws), or a fetch that is not caught per height failed. *)
Inductive ScanError := NotInitialized | Fetch (e : FetchError).

Section Wallet.

Variable scanOutputsWithTweak :
  list byte -> list byte -> list byte -> list (list byte) -> option (list (string * list byte)).
(** The scan private and spend public keys the wallet's [keyDerivation]
    yields for its seed (a function of the seed alone, see the theorem on
    [KeyDerivation.run]); [None] when derivation throws. *)
Variable kd_keys : option (list byte * list byte).

(** The wallet fields the silent-payment code reads and writes. *)
Record Wallet := mkWallet {
  utxoRepository : UTXORepository.t;
  lastScannedBlock : Z
}.

(** The [IndexerTransaction] built in [processAndAddTransactions]:
    [tx.blockHeight || blockHeight] (0 is falsy) and
    [tx.blockHash || ''] (which is [tx.blockHash] for a string). *)
Definition to_indexer_tx (tx : IndexerTransactionData) (blockHeight : Z) : IndexerTransaction :=
  mkIndexerTx (if d_blockHeight tx =? 0 then blockHeight else d_blockHeight tx)
    (d_blockHash tx) (id tx) (d_scanTweak tx) (d_outputs tx).

(** [for (const utxo of matchedUTXOs) this.utxoRepository.add(utxo)] *)
Definition add_all (us : list SilentPaymentUTXO) (repo : UTXORepository.t) : UTXORepository.t :=
  fold_left (fun repo u => snd (UTXORepository.add u repo)) us repo.

(** [tx.scanTweak && tx.outputs && tx.outputs.length > 0] *)
Definition scannable (tx : IndexerTransactionData) : bool :=
  negb (String.eqb (d_scanTweak tx) EmptyString) && negb (Nat.eqb (List.length (d_outputs tx)) 0).

(** The loop over the block's transactions. *)
Definition commit_transactions (transactions : list IndexerTransactionData) (blockHeight : Z)
    (repo : UTXORepository.t) : UTXORepository.t :=
  fold_left
    (fun repo tx =>
       if scannable tx
       then add_all (process scanOutputsWithTweak kd_keys (to_indexer_tx tx blockHeight)) repo
       else repo)
    transactions repo.

(** [processAndAddTransactions(transactions, blockHeight)] *)
Definition processAndAddTransactions (transactions : list IndexerTransactionData)
    (blockHeight : Z) (w : Wallet) : Wallet :=
  let repo := commit_transactions transactions blockHeight (utxoRepository w) in
  mkWallet repo (if blockHeight >? lastScannedBlock w then blockHeight else lastScannedBlock w).

Definition unspentCount (w : Wallet) : Z :=
  Z.of_nat (List.length (UTXORepository.getAll (utxoRepository w))).

(** [scanForPayments(maxBlocks)]: the number of new UTXOs and the wallet
    after the scan. *)
Definition scanForPayments (defaultIndexer : option Indexer) (maxBlocks : Z) (w : Wallet)
    : ScanError + (Z * Wallet) :=
  match defaultIndexer with
  | None => inl NotInitialized
  | Some indexer =>
      let initialCount := unspentCount w in
      match scanBackwardsWithCallback Wallet indexer maxBlocks processAndAddTransactions None w with
      | inl e => inl (Fetch e)
      | inr res =>
          let w' := cbState res in
          let finalCount := unspentCount w' in
          inr (finalCount - initialCount, w')
      end
  end.

(** [scanForPaymentsForward(startHeight, endHeight)]: its loop fetches each
    height, hands a non-empty transaction list to
    [processAndAddTransactions] and skips a height whose fetch throws, which
    is the forward [scan_loop] with that callback. *)
Definition scanForPaymentsForward (defaultIndexer : option Indexer) (startHeight : Z)
    (endHeight : option Z) (w : Wallet) : ScanError + (Z * Wallet) :=
  match defaultIndexer with
  | None => inl NotInitialized
  | Some indexer =>
      let initialCount := unspentCount w in
      match resolveStart indexer endHeight with
      | inl e => inl (Fetch e)
      | inr end_ =>
          let res := scan_loop Wallet indexer Forward end_ (Some processAndAddTransactions)
                       (scan_fuel Forward startHeight end_) startHeight
                       (mkScanResult [] [] w) in
          let w' := cbState res in
          inr (unspentCount w' - initialCount, w')
      end
  end.

(** [getUTXOs()], [getBalance()], [getLastScannedBlock()] *)
Definition getUTXOs (w : Wallet) : list SilentPaymentUTXO := UTXORepository.getAll (utxoRepository w).
Definition getBalance (w : Wallet) : Z := UTXORepository.getBalance (utxoRepository w).
Definition getLastScannedBlock (w : Wallet) : Z := lastScannedBlock w.

(** [setLastScannedBlock(height)] *)
Definition setLastScannedBlock (height : Z) (w : Wallet) : Wallet :=
  mkWallet (utxoRepository w) height.

(** [clearCache()]: besides the key caches, empties the repository and
    resets [lastScannedBlock]. *)
Definition clearCache (w : Wallet) : Wallet :=
  mkWallet (UTXORepository.clear (utxoRepository w)) 0.

(** The wallet's public operations touching the silent-payment state. *)
Inductive wallet_op :=
| OpScanForPayments (maxBlocks : Z)
| OpScanForPaymentsForward (startHeight : Z) (endHeight : option Z)
| OpSetLastScannedBlock (height : Z)
| OpClearCache
| OpGetUTXOs
| OpGetBalance
| OpGetLastScannedBlock.

(** The wallet after an operation; a scan that throws leaves it as it was
    (the exception is raised before any block is processed). *)
Definition wallet_step (defaultIndexer : option Indexer) (o : wallet_op) (w : Wallet) : Wallet :=
  match o with
  | OpScanForPayments m =>
      match scanForPayments defaultIndexer m w with inl _ => w | inr (_, w') => w' end
  | OpScanForPaymentsForward s e =>
      match scanForPaymentsForward defaultIndexer s e w with inl _ => w | inr (_, w') => w' end
  | OpSetLastScannedBlock h => setLastScannedBlock h w
  | OpClearCache => clearCache w
  | OpGetUTXOs | OpGetBalance | OpGetLastScannedBlock => w
  end.

End Wallet.

(* ================================================================== *)
(** ** [getSilentBlocksRange] *)

(** [TweakData] and [SilentBlock] *)
Record TweakData := mkTweakData { td_tweak : string; td_pubkey : string }.
Record SilentBlock := mkSilentBlock {
  block_height : Z;
  block_hash : string;
  tweaks : list TweakData
}.

Section SilentBlocksRange.

(** The indexer's answer to [/silent-block/height/:height]. *)
Variable silentBlockResponse : Z -> option (HttpResponse SilentBlock).

Definition getSilentBlockByHeight (height : Z) : FetchError + SilentBlock :=
  executeGet (silentBlockResponse height).

(** The loop of [getSilentBlocksRange]; a failed fetch is skipped. *)
Fixpoint blocks_loop (endHeight : Z) (fuel : nat) (height : Z) (blocks : list SilentBlock)
    : list SilentBlock :=
  match fuel with
  | O => blocks
  | Datatypes.S fuel' =>
      if height <=? endHeight then
        let blocks' :=
          match getSilentBlockByHeight height with
          | inl _ => blocks
          | inr block => blocks ++ [block]
          end in
        blocks_loop endHeight fuel' (height + 1) blocks'
      else blocks
  end.

(** [getSilentBlocksRange(startHeight, endHeight)] *)
Definition getSilentBlocksRange (startHeight endHeight : Z) : list SilentBlock :=
  blocks_loop endHeight (Z.to_nat (endHeight - startHeight + 1)) startHeight [].

End SilentBlocksRange.

(* ================================================================== *)
(** * Specification-side helpers *)

(** Sum of [value] over the entries whose spent flag is false. *)
Fixpoint unspent_sum (l : list SilentPaymentUTXO) : Z :=
  match l with
  | [] => 0
  | u :: rest => (if isSpent u then 0 else value u) + unspent_sum rest
  end.

(** Replaces the [i]-th persisted record by the same record flagged spent. *)
Fixpoint mark_spent (i : nat) (l : list SilentPaymentUTXOSerializable)
    : list SilentPaymentUTXOSerializable :=
  match l, i with
  | [], _ => []
  | s :: rest, O =>
      mkUTXOSer (s_txid s) (s_vout s) (s_value s) (s_pubKey s) (s_blockHeight s)
        (s_blockHash s) (tweakHex s) true :: rest
  | s :: rest, Datatypes.S i' => s :: mark_spent i' rest
  end.

(** The runtime and persisted records agree: same fields, and the hex tweak
    is the encoding of the binary one. *)
Definition record_agrees (u : SilentPaymentUTXO) (s : SilentPaymentUTXOSerializable) : Prop :=
  s_txid s = txid u /\ s_vout s = vout u /\ s_value s = value u /\ s_pubKey s = pubKey u /\
  s_blockHeight s = blockHeight u /\ s_blockHash s = blockHash u /\
  s_isSpent s = isSpent u /\ tweakHex s = hex_encode (tweak u).

Definition repo_agrees (r : UTXORepository.t) : Prop :=
  Forall2 record_agrees (UTXORepository.utxos r) (UTXORepository.utxosSerializable r).

(** A hex string in the form [toString('hex')] produces (lower case, even
    length). *)
Definition canonical_hex (s : string) : bool :=
  String.eqb (hex_encode (hex_decode s)) s.

(** Operations on one repository. *)
Inductive repo_op :=
| RAdd (u : SilentPaymentUTXO)
| RClear
| RLoad (l : list SilentPaymentUTXOSerializable).

Definition repo_step (o : repo_op) (r : UTXORepository.t) : UTXORepository.t :=
  match o with
  | RAdd u => snd (UTXORepository.add u r)
  | RClear => UTXORepository.clear r
  | RLoad l => UTXORepository.loadFromSerializable l r
  end.

Definition repo_run (ops : list repo_op) (r : UTXORepository.t) : UTXORepository.t :=
  fold_left (fun r o => repo_step o r) ops r.

(** The heights [h], [h + inc], ... ([n] of them). *)
Fixpoint range_from (inc h : Z) (n : nat) : list Z :=
  match n with
  | O => []
  | Datatypes.S n' => h :: range_from inc (h + inc) n'
  end.

(** A callback that records the heights it is handed. *)
Definition record_height (_ : list IndexerTransactionData) (height : Z) (seen : list Z) : list Z :=
  seen ++ [height].

(** The repository [r'] is [r] with records appended. *)
Definition appends (r r' : UTXORepository.t) : Prop :=
  exists added, UTXORepository.utxos r' = UTXORepository.utxos r ++ added.

(** The transactions one height contributes: the fetched list, none when
    the fetch fails. *)
Definition block_transactions (idx : Indexer) (h : Z) : list IndexerTransactionData :=
  match getTransactionsByHeight idx h with inr txs => txs | inl _ => [] end.

(** The callback applied, in order, at each height of [hs] whose fetch
    succeeds with a non-empty list. *)
Definition callback_run {St : Type} (idx : Indexer)
    (f : list IndexerTransactionData -> Z -> St -> St) (hs : list Z) (st : St) : St :=
  fold_left
    (fun st h =>
       match getTransactionsByHeight idx h with
       | inr txs => if Nat.eqb (List.length txs) 0 then st else f txs h st
       | inl _ => st
       end) hs st.

(** The block one height contributes to [getSilentBlocksRange]. *)
Definition silent_block_at (resp : Z -> option (HttpResponse SilentBlock)) (h : Z)
    : list SilentBlock :=
  match getSilentBlockByHeight resp h with inr b => [b] | inl _ => [] end.

(** The deduplication key of [add]. *)
Definition utxo_key (u : SilentPaymentUTXO) : string * Z := (txid u, vout u).

Definition key_eq_dec (a b : string * Z) : {a = b} + {a <> b}.
Proof. decide equality; [apply Z.eq_dec | apply string_dec]. Defined.

(** The matches [processAndAddTransactions] hands to [add] for a block, in
    order. *)
Definition block_matches
    (scanOutputsWithTweak : list byte -> list byte -> list byte -> list (list byte) ->
                            option (list (string * list byte)))
    (kd_keys : option (list byte * list byte))
    (transactions : list IndexerTransactionData) (blockHeight : Z) : list SilentPaymentUTXO :=
  flat_map (fun tx => if scannable tx
                      then process scanOutputsWithTweak kd_keys (to_indexer_tx tx blockHeight)
                      else []) transactions.

(** The heights of [hs] whose fetch succeeds with a non-empty list. *)
Definition live_heights (idx : Indexer) (hs : list Z) : list Z :=
  filter (fun h => negb (Nat.eqb (List.length (block_transactions idx h)) 0)) hs.

(** A block processed as the amended progress property describes it: the
    matches of all of its transactions committed to the repository, then
    the progress set to the greater of its value and the block's height. *)
Definition apply_block
    (scanOutputsWithTweak : list byte -> list byte -> list byte -> list (list byte) ->
                            option (list (string * list byte)))
    (kd_keys : option (list byte * list byte))
    (w : Wallet) (block : list IndexerTransactionData * Z) : Wallet :=
  mkWallet (commit_transactions scanOutputsWithTweak kd_keys (fst block) (snd block)
              (utxoRepository w))
    (Z.max (lastScannedBlock w) (snd block)).

(** The blocks a scan over the heights [hs] processes, in order: those whose
    fetch succeeds with a non-empty transaction list. *)
Definition processed_blocks (idx : Indexer) (hs : list Z) : list (list IndexerTransactionData * Z) :=
  flat_map (fun h => match getTransactionsByHeight idx h with
                     | inr txs => if Nat.eqb (List.length txs) 0 then [] else [(txs, h)]
                     | inl _ => []
                     end) hs.

(* ================================================================== *)
(** * Lemmas *)

Lemma hex_decode_encode_cons (b : byte) (rest : list byte) :
  hex_decode (hex_encode (b :: rest)) = b :: hex_decode (hex_encode rest).
Proof. destruct b; reflexivity. Qed.

Lemma hex_decode_encode (bs : list byte) : hex_decode (hex_encode bs) = bs.
Proof.
  induction bs as [|b rest IH]; [reflexivity|].
  rewrite hex_decode_encode_cons, IH; reflexivity.
Qed.

Lemma from_to_serializable (u : SilentPaymentUTXO) :
  UTXORepository.from_serializable (UTXORepository.to_serializable u) = u.
Proof.
  destruct u; unfold UTXORepository.from_serializable, UTXORepository.to_serializable; simpl.
  rewrite hex_decode_encode; reflexivity.
Qed.

Lemma add_appends (u : SilentPaymentUTXO) (r : UTXORepository.t) :
  (UTXORepository.utxos (snd (UTXORepository.add u r)) = UTXORepository.utxos r ++ [u] /\
   UTXORepository.utxosSerializable (snd (UTXORepository.add u r)) =
     UTXORepository.utxosSerializable r ++ [UTXORepository.to_serializable u])
  \/ snd (UTXORepository.add u r) = r.
Proof.
  unfold UTXORepository.add.
  destruct (existsb _ _); simpl; [right; reflexivity | left; split; reflexivity].
Qed.

Lemma add_all_serializable (us : list SilentPaymentUTXO) (r : UTXORepository.t) :
  UTXORepository.utxosSerializable r = map UTXORepository.to_serializable (UTXORepository.utxos r) ->
  let r' := add_all us r in
  UTXORepository.utxosSerializable r' = map UTXORepository.to_serializable (UTXORepository.utxos r').
Proof.
  revert r; induction us as [|u us IH]; intros r H; simpl; [exact H|].
  apply IH.
  destruct (add_appends u r) as [[H1 H2] | H1]; [|rewrite H1; exact H].
  rewrite H1, H2, H, map_app; reflexivity.
Qed.

Lemma fold_left_sum_shift (l : list SilentPaymentUTXO) (a : Z) :
  fold_left (fun sum u => sum + value u) l a = a + fold_left (fun sum u => sum + value u) l 0.
Proof.
  revert a; induction l as [|u l IH]; intros a; simpl; [lia|].
  rewrite (IH (a + value u)), (IH (value u)); lia.
Qed.

Lemma getBalance_unspent_sum (r : UTXORepository.t) :
  UTXORepository.getBalance r = unspent_sum (UTXORepository.utxos r).
Proof.
  unfold UTXORepository.getBalance.
  induction (UTXORepository.utxos r) as [|u l IH]; simpl; [reflexivity|].
  destruct (isSpent u); simpl; [exact IH|].
  rewrite fold_left_sum_shift, IH; lia.
Qed.

Lemma unspent_sum_app (l1 l2 : list SilentPaymentUTXO) :
  unspent_sum (l1 ++ l2) = unspent_sum l1 + unspent_sum l2.
Proof. induction l1 as [|u l IH]; simpl; lia. Qed.

Lemma add_fresh (u : SilentPaymentUTXO) (r : UTXORepository.t)
  (Hfresh : forall x, In x (UTXORepository.utxos r) -> txid x <> txid u \/ vout x <> vout u) :
  UTXORepository.add u r =
    (true, UTXORepository.mkRepo (UTXORepository.utxos r ++ [u])
             (UTXORepository.utxosSerializable r ++ [UTXORepository.to_serializable u])).
Proof.
  unfold UTXORepository.add.
  case_eq (existsb (fun x => String.eqb (txid x) (txid u) && Z.eqb (vout x) (vout u))
             (UTXORepository.utxos r)); intros Hex; [|reflexivity].
  apply existsb_exists in Hex as [x [Hin Hx]].
  apply andb_true_iff in Hx as [H1 H2].
  apply String.eqb_eq in H1; apply Z.eqb_eq in H2.
  destruct (Hfresh x Hin); contradiction.
Qed.

Lemma add_present (u : SilentPaymentUTXO) (r : UTXORepository.t)
  (Hin : In u (UTXORepository.utxos r)) :
  UTXORepository.add u r = (false, r).
Proof.
  unfold UTXORepository.add.
  replace (existsb _ _) with true; [reflexivity|].
  symmetry; apply existsb_exists; exists u; split; [exact Hin|].
  rewrite String.eqb_refl, Z.eqb_refl; reflexivity.
Qed.

Lemma add_all_reachable_roundtrip (us : list SilentPaymentUTXO) (r0 : UTXORepository.t) :
  let r := add_all us UTXORepository.empty in
  UTXORepository.loadFromSerializable (UTXORepository.getSerializable r) r0 = r.
Proof.
  intros r.
  pose proof (add_all_serializable us UTXORepository.empty eq_refl) as H; fold r in H.
  unfold UTXORepository.loadFromSerializable, UTXORepository.getSerializable.
  rewrite H, map_map.
  erewrite map_ext; [rewrite map_id | intros; apply from_to_serializable].
  destruct r as [a b]; simpl in *; rewrite H; reflexivity.
Qed.

Lemma unspent_sum_mark_spent (l : list SilentPaymentUTXOSerializable) (i : nat)
    (s : SilentPaymentUTXOSerializable) :
  nth_error l i = Some s -> s_isSpent s = false ->
  unspent_sum (map UTXORepository.from_serializable (mark_spent i l)) =
  unspent_sum (map UTXORepository.from_serializable l) - s_value s.
Proof.
  revert i; induction l as [|x l IH]; intros i Hnth Hs; destruct i as [|i]; simpl in *;
    try discriminate.
  - injection Hnth as <-. rewrite Hs; simpl; lia.
  - rewrite (IH i Hnth Hs); lia.
Qed.

Lemma record_agrees_to_serializable (u : SilentPaymentUTXO) :
  record_agrees u (UTXORepository.to_serializable u).
Proof. repeat split. Qed.

Lemma record_agrees_from_serializable (s : SilentPaymentUTXOSerializable) :
  canonical_hex (tweakHex s) = true -> record_agrees (UTXORepository.from_serializable s) s.
Proof.
  intros Hc; apply String.eqb_eq in Hc.
  repeat split; simpl; symmetry; exact Hc.
Qed.

Lemma repo_step_agrees (o : repo_op) (r : UTXORepository.t) :
  (forall l, o = RLoad l -> forall s, In s l -> canonical_hex (tweakHex s) = true) ->
  repo_agrees r -> repo_agrees (repo_step o r).
Proof.
  intros Hc Hr; destruct o as [u | | l]; simpl.
  - destruct (add_appends u r) as [[H1 H2] | H1]; [|rewrite H1; exact Hr].
    unfold repo_agrees; rewrite H1, H2.
    apply Forall2_app; [exact Hr|].
    constructor; [apply record_agrees_to_serializable | constructor].
  - constructor.
  - unfold repo_agrees; simpl.
    specialize (Hc l eq_refl).
    induction l as [|s l IH]; simpl; constructor.
    + apply record_agrees_from_serializable, Hc; left; reflexivity.
    + apply IH; intros s' Hs'; apply Hc; right; exact Hs'.
Qed.

(* ================================================================== *)
(** * Claims on [UTXORepository] *)

(** C3 (claim as stated). Adding twice a record with a fresh (txid, vout)
    makes [getAll().length] grow by one: false for a record whose spent flag
    is set, which is stored but not listed by [getAll]. *)
Lemma C3_add_twice_spent_counterexample :
  let u := mkUTXO "tx" 0 1000 "pk" 1 "bh" [] true in
  let '(b1, r1) := UTXORepository.add u UTXORepository.empty in
  let '(b2, r2) := UTXORepository.add u r1 in
  b1 = true /\ b2 = false /\
  List.length (UTXORepository.getAll r2) = List.length (UTXORepository.getAll UTXORepository.empty) /\
  List.length (UTXORepository.getAll r2) <> Datatypes.S (List.length (UTXORepository.getAll UTXORepository.empty)).
Proof. simpl; repeat split; discriminate. Qed.

(** C3 (amended). For a repository with no entry of the record's (txid,
    vout), two [add] calls with the record return [true] then [false], the
    stored list grows by exactly one, and [getAll().length] grows by one when
    the record is unspent and stays the same when it is spent. *)
Theorem C3_add_twice_inserts_once (r : UTXORepository.t) (u : SilentPaymentUTXO)
  (Hfresh : forall x, In x (UTXORepository.utxos r) -> txid x <> txid u \/ vout x <> vout u) :
  let '(b1, r1) := UTXORepository.add u r in
  let '(b2, r2) := UTXORepository.add u r1 in
  b1 = true /\ b2 = false /\
  List.length (UTXORepository.utxos r2) = Datatypes.S (List.length (UTXORepository.utxos r)) /\
  List.length (UTXORepository.getAll r2) =
    (List.length (UTXORepository.getAll r) + (if isSpent u then 0 else 1))%nat.
Proof.
  rewrite (add_fresh u r Hfresh).
  rewrite add_present by (simpl; apply in_or_app; right; left; reflexivity).
  simpl; unfold UTXORepository.getAll; simpl.
  rewrite length_app, filter_app, length_app; simpl.
  repeat split; [lia|].
  destruct (isSpent u); simpl; lia.
Qed.

(** Witness of C3: a fresh unspent record added to the empty repository. *)
Lemma C3_add_twice_inserts_once_witness :
  let u := mkUTXO "tx" 0 1000 "pk" 1 "bh" [] false in
  (forall x, In x (UTXORepository.utxos UTXORepository.empty) -> txid x <> txid u \/ vout x <> vout u) /\
  (let '(b1, r1) := UTXORepository.add u UTXORepository.empty in
   let '(b2, r2) := UTXORepository.add u r1 in
   b1 = true /\ b2 = false /\
   List.length (UTXORepository.utxos r2) = Datatypes.S (List.length (UTXORepository.utxos UTXORepository.empty)) /\
   List.length (UTXORepository.getAll r2) =
     (List.length (UTXORepository.getAll UTXORepository.empty) + (if isSpent u then 0 else 1))%nat).
Proof.
  intros u.
  assert (H : forall x, In x (UTXORepository.utxos UTXORepository.empty) -> txid x <> txid u \/ vout x <> vout u)
    by (simpl; intros x []).
  split; [exact H | exact (C3_add_twice_inserts_once UTXORepository.empty u H)].
Defined.

(** C4. For every repository reached by [add] calls from a new one,
    [loadFromSerializable(getSerializable())] (into any repository) gives the
    same unspent set and balance; the hex tweak decodes to the binary one. *)
Theorem C4_serialization_roundtrip (us : list SilentPaymentUTXO) (r0 : UTXORepository.t) :
  let r := add_all us UTXORepository.empty in
  let r' := UTXORepository.loadFromSerializable (UTXORepository.getSerializable r) r0 in
  UTXORepository.getAll r' = UTXORepository.getAll r /\
  UTXORepository.getBalance r' = UTXORepository.getBalance r /\
  (forall b : list byte, hex_decode (hex_encode b) = b).
Proof.
  intros r r'.
  assert (Hr : r' = r) by exact (add_all_reachable_roundtrip us r0).
  rewrite Hr.
  split; [reflexivity | split; [reflexivity | exact hex_decode_encode]].
Qed.

(** C5. After any sequence of [add] calls, [getBalance()] is the sum of the
    values of the stored entries whose spent flag is false; and reloading a
    persisted list with one unspent entry flagged spent lowers the balance by
    exactly that entry's value. *)
Theorem C5_balance_is_unspent_sum (us : list SilentPaymentUTXO) (r : UTXORepository.t) :
  UTXORepository.getBalance (add_all us r) = unspent_sum (UTXORepository.utxos (add_all us r)) /\
  (forall (l : list SilentPaymentUTXOSerializable) (i : nat) (s : SilentPaymentUTXOSerializable)
          (r0 : UTXORepository.t),
     nth_error l i = Some s -> s_isSpent s = false ->
     UTXORepository.getBalance (UTXORepository.loadFromSerializable (mark_spent i l) r0) =
     UTXORepository.getBalance (UTXORepository.loadFromSerializable l r0) - s_value s).
Proof.
  split; [apply getBalance_unspent_sum|].
  intros l i s r0 Hnth Hs.
  rewrite !getBalance_unspent_sum; simpl.
  exact (unspent_sum_mark_spent l i s Hnth Hs).
Qed.

(** Witness of C5: a two-entry persisted list, the second entry flagged
    spent on reload. *)
Lemma C5_balance_is_unspent_sum_witness :
  let l := [mkUTXOSer "a" 0 500 "pa" 1 "h" "00" false; mkUTXOSer "b" 1 700 "pb" 1 "h" "01" false] in
  nth_error l 1%nat = Some (mkUTXOSer "b" 1 700 "pb" 1 "h" "01" false) /\
  UTXORepository.getBalance (UTXORepository.loadFromSerializable (mark_spent 1%nat l) UTXORepository.empty) =
  UTXORepository.getBalance (UTXORepository.loadFromSerializable l UTXORepository.empty) - 700.
Proof.
  intros l; split; [reflexivity|].
  exact (proj2 (C5_balance_is_unspent_sum [] UTXORepository.empty) l 1%nat
           (mkUTXOSer "b" 1 700 "pb" 1 "h" "01" false) UTXORepository.empty eq_refl eq_refl).
Defined.

(** C9 (claim as stated). Loading a persisted record whose hex tweak is not
    in canonical form (upper case) breaks the correspondence: the runtime
    tweak re-encodes as "ab", not the stored "AB". *)
Lemma C9_noncanonical_hex_counterexample :
  let r := repo_run [RLoad [mkUTXOSer "tx" 0 1000 "pk" 1 "bh" "AB" false]] UTXORepository.empty in
  ~ repo_agrees r.
Proof.
  simpl; unfold repo_agrees; simpl; intros H.
  inversion H as [|u s l1 l2 Hrec]; subst.
  destruct Hrec as (_ & _ & _ & _ & _ & _ & _ & Hhex).
  simpl in Hhex; discriminate.
Qed.

(** C9 (amended). From a new repository, after every sequence of [add],
    [clear] and [loadFromSerializable] calls whose loaded lists hold hex
    tweaks in canonical form (lower case, even length, as [getSerializable]
    produces them), the runtime and persisted lists have equal length and
    agree entry by entry, the hex tweak encoding the binary one. *)
Theorem C9_repo_lists_agree (ops : list repo_op)
  (Hcanon : forall l, In (RLoad l) ops -> forall s, In s l -> canonical_hex (tweakHex s) = true) :
  let r := repo_run ops UTXORepository.empty in
  List.length (UTXORepository.utxos r) = List.length (UTXORepository.utxosSerializable r) /\
  repo_agrees r.
Proof.
  intros r.
  assert (Hr : repo_agrees r).
  { subst r; unfold repo_run.
    assert (H0 : repo_agrees UTXORepository.empty) by constructor.
    revert H0; generalize UTXORepository.empty.
    induction ops as [|o ops IH]; intros r0 H0; simpl; [exact H0|].
    apply IH.
    - intros l Hl; apply Hcanon; right; exact Hl.
    - apply repo_step_agrees; [|exact H0].
      intros l -> ; apply Hcanon; left; reflexivity. }
  split; [exact (Forall2_length Hr) | exact Hr].
Qed.

(** Witness of C9: an [add], a reload of the persisted list, a [clear] and an
    [add]. *)
Lemma C9_repo_lists_agree_witness :
  let u := mkUTXO "tx" 0 1000 "pk" 1 "bh" [Byte.xab] false in
  let ops := [RAdd u; RLoad [UTXORepository.to_serializable u]; RClear; RAdd u] in
  (forall l, In (RLoad l) ops -> forall s, In s l -> canonical_hex (tweakHex s) = true) /\
  (let r := repo_run ops UTXORepository.empty in
   List.length (UTXORepository.utxos r) = List.length (UTXORepository.utxosSerializable r) /\
   repo_agrees r).
Proof.
  intros u ops.
  assert (H : forall l, In (RLoad l) ops -> forall s, In s l -> canonical_hex (tweakHex s) = true).
  { intros l Hl s Hs; simpl in Hl.
    destruct Hl as [Hl | [Hl | [Hl | [Hl | []]]]]; try discriminate.
    injection Hl as <-. destruct Hs as [<- | []]; reflexivity. }
  split; [exact H | exact (C9_repo_lists_agree ops H)].
Defined.

(* ================================================================== *)
(** * Key derivation *)

Section KeyDerivationProofs.

Variable BIP32Key : Type.
Variable fromSeed : list byte -> BIP32Key.
Variable derivePath : BIP32Key -> string -> BIP32Key.
Variable publicKey : BIP32Key -> list byte.
Variable privateKey : BIP32Key -> list byte.
Variable encodeSilentPaymentAddress : list byte -> list byte -> string.

(** The state of an instance created from [s]: every cache is either empty
    or holds what the seed determines. *)
Definition kd_inv (s : list byte) (k : KeyDerivation.t BIP32Key) : Prop :=
  let root := fromSeed s in
  let spend := derivePath root KeyDerivation.spendPath in
  let scan := derivePath root KeyDerivation.scanPath in
  KeyDerivation.seed BIP32Key k = s /\
  (KeyDerivation.scanKey BIP32Key k = None \/ KeyDerivation.scanKey BIP32Key k = Some scan) /\
  (KeyDerivation.spendKey BIP32Key k = None \/ KeyDerivation.spendKey BIP32Key k = Some spend) /\
  (KeyDerivation.silentPaymentAddress BIP32Key k = None \/
   KeyDerivation.silentPaymentAddress BIP32Key k =
     Some (encodeSilentPaymentAddress (publicKey scan) (publicKey spend))).

Lemma deriveKeys_inv (s : list byte) (k : KeyDerivation.t BIP32Key) :
  kd_inv s k ->
  let k' := KeyDerivation.deriveKeys BIP32Key fromSeed derivePath k in
  KeyDerivation.seed BIP32Key k' = s /\
  KeyDerivation.scanKey BIP32Key k' = Some (derivePath (fromSeed s) KeyDerivation.scanPath) /\
  KeyDerivation.spendKey BIP32Key k' = Some (derivePath (fromSeed s) KeyDerivation.spendPath) /\
  KeyDerivation.silentPaymentAddress BIP32Key k' = KeyDerivation.silentPaymentAddress BIP32Key k.
Proof.
  destruct k as [sd sc sp ad]; intros (Hs & Hsc & Hsp & Had); simpl in *; subst sd.
  unfold KeyDerivation.deriveKeys; simpl.
  destruct Hsc as [-> | ->]; destruct Hsp as [-> | ->]; simpl; repeat split.
Qed.

Lemma kd_step_inv (s : list byte) (o : KeyDerivation.op) (k : KeyDerivation.t BIP32Key) :
  kd_inv s k ->
  fst (KeyDerivation.step BIP32Key fromSeed derivePath publicKey privateKey
         encodeSilentPaymentAddress o k) =
    KeyDerivation.from_seed BIP32Key fromSeed derivePath publicKey privateKey
      encodeSilentPaymentAddress s o /\
  kd_inv s (snd (KeyDerivation.step BIP32Key fromSeed derivePath publicKey privateKey
                   encodeSilentPaymentAddress o k)).
Proof.
  intros Hk.
  pose proof (deriveKeys_inv s k Hk) as (Hs' & Hsc' & Hsp' & Had').
  destruct o; simpl;
    unfold KeyDerivation.getScanPrivateKey, KeyDerivation.getSpendPrivateKey,
      KeyDerivation.getScanPublicKey, KeyDerivation.getSpendPublicKey,
      KeyDerivation.getSilentPaymentAddress, KeyDerivation.clear, KeyDerivation.the_key in *;
    simpl.
  1-4: rewrite ?Hsc', ?Hsp'; split; [reflexivity|];
       destruct Hk as (_ & _ & _ & Had); unfold kd_inv; rewrite Hs', Hsc', Hsp', Had';
       repeat split; auto.
  - destruct Hk as (Hs & Hsc & Hsp & Had).
    destruct Had as [Had | Had]; rewrite Had.
    + rewrite Hsc', Hsp'; simpl; split; [reflexivity|].
      unfold kd_inv; simpl; rewrite ?Hs', ?Hsc', ?Hsp'; repeat split; auto.
    + destruct (negb (String.eqb _ EmptyString)); simpl.
      * split; [reflexivity | unfold kd_inv; repeat split; auto].
      * rewrite Hsc', Hsp'; simpl; split; [reflexivity|].
        unfold kd_inv; simpl; rewrite ?Hs', ?Hsc', ?Hsp'; repeat split; auto.
  - split; [reflexivity|]. destruct Hk as (Hs & _).
    unfold kd_inv; simpl; repeat split; auto.
Qed.

End KeyDerivationProofs.

(** C6. For a fixed seed, every sequence of calls on a
    [SilentPaymentKeyDerivation] instance, [clear()] included, returns from
    each call exactly what the seed determines: the address is the same
    string on every call, before and after [clear()], and two instances made
    from the same seed give identical addresses and scan/spend private and
    public keys (for any pure [bip32] and address-encoding functions). *)
Theorem C6_key_derivation_deterministic (BIP32Key : Type)
    (fromSeed : list byte -> BIP32Key) (derivePath : BIP32Key -> string -> BIP32Key)
    (publicKey privateKey : BIP32Key -> list byte)
    (encodeSilentPaymentAddress : list byte -> list byte -> string)
    (seed : list byte) (ops : list KeyDerivation.op) :
  KeyDerivation.run BIP32Key fromSeed derivePath publicKey privateKey encodeSilentPaymentAddress
    ops (KeyDerivation.create BIP32Key seed) =
  map (KeyDerivation.from_seed BIP32Key fromSeed derivePath publicKey privateKey
         encodeSilentPaymentAddress seed) ops.
Proof.
  assert (H0 : kd_inv BIP32Key fromSeed derivePath publicKey encodeSilentPaymentAddress seed
                 (KeyDerivation.create BIP32Key seed))
    by (unfold kd_inv; simpl; repeat split; auto).
  revert H0; generalize (KeyDerivation.create BIP32Key seed).
  induction ops as [|o ops IH]; intros k Hk; simpl; [reflexivity|].
  pose proof (kd_step_inv BIP32Key fromSeed derivePath publicKey privateKey
                encodeSilentPaymentAddress seed o k Hk) as [Hout Hinv].
  destruct (KeyDerivation.step _ _ _ _ _ _ o k) as [r k'] eqn:E; simpl in *.
  rewrite Hout, (IH k' Hinv); reflexivity.
Qed.

(* ================================================================== *)
(** * Transaction processing *)

(** C7. [process] never throws (its result is a list, an exception in its
    body being caught) and yields no match when the decoded scan tweak is not
    33 bytes long, when the scanning primitive throws (malformed keys), or
    when reading the wallet keys throws; its only result is the match
    list (its console logging and the key cache the getters fill, which
    the theorem on [KeyDerivation.run] shows unobservable, are not part of
    the model). *)
Theorem C7_process_degrades_to_no_match
    (scanOutputsWithTweak : list byte -> list byte -> list byte -> list (list byte) ->
                            option (list (string * list byte)))
    (kd_keys : option (list byte * list byte)) (tx : IndexerTransaction) :
  (List.length (hex_decode (scanTweak tx)) <> 33%nat ->
     process scanOutputsWithTweak kd_keys tx = []) /\
  (forall scanPrivateKey spendPublicKey,
     kd_keys = Some (scanPrivateKey, spendPublicKey) ->
     scanOutputsWithTweak scanPrivateKey spendPublicKey (hex_decode (scanTweak tx))
       (map (fun output => hex_decode ("02" ++ o_pubKey output)) (outputs tx)) = None ->
     process scanOutputsWithTweak kd_keys tx = []) /\
  (kd_keys = None -> process scanOutputsWithTweak kd_keys tx = []) /\
  (process_body scanOutputsWithTweak kd_keys tx = None ->
     process scanOutputsWithTweak kd_keys tx = []).
Proof.
  unfold process, process_body.
  repeat split.
  - intros Hlen. destruct kd_keys as [[sk pk]|]; [|reflexivity].
    apply Nat.eqb_neq in Hlen; rewrite Hlen; reflexivity.
  - intros sk pk -> Hprim.
    destruct (Nat.eqb _ 33); cbn [negb]; [rewrite Hprim|]; reflexivity.
  - intros ->; reflexivity.
  - intros H; rewrite H; reflexivity.
Qed.

(** Witness of C7: a two-byte scan tweak, and a primitive that throws. *)
Lemma C7_process_degrades_to_no_match_witness :
  let tx := mkIndexerTx 100 "bh" "tx" "abcd" [mkOutput "tx" 0 "aa" 1000 false] in
  let prim := fun (_ _ _ : list byte) (_ : list (list byte)) => @None (list (string * list byte)) in
  List.length (hex_decode (scanTweak tx)) <> 33%nat /\
  process prim (Some ([], [])) tx = [] /\
  process prim (Some ([], [])) (mkIndexerTx 100 "bh" "tx" (hex_encode (repeat Byte.x02 33)) []) = [] /\
  process prim None tx = [].
Proof.
  intros tx prim.
  assert (Hlen : List.length (hex_decode (scanTweak tx)) <> 33%nat) by (simpl; discriminate).
  split; [exact Hlen|].
  split; [exact (proj1 (C7_process_degrades_to_no_match prim (Some ([], [])) tx) Hlen)|].
  split.
  - exact (proj1 (proj2 (C7_process_degrades_to_no_match prim (Some ([], []))
             (mkIndexerTx 100 "bh" "tx" (hex_encode (repeat Byte.x02 33)) [])))
             [] [] eq_refl eq_refl).
  - exact (proj1 (proj2 (proj2 (C7_process_degrades_to_no_match prim None tx))) eq_refl).
Defined.

(* ================================================================== *)
(** * Scanning *)

Section ScanLemmas.

Variable St : Type.
Variable idx : Indexer.

Lemma scan_loop_fold (direction : Direction) (endHeight : Z)
    (cb : option (list IndexerTransactionData -> Z -> St -> St)) (n : nat) :
  forall (start : Z) (acc : ScanResult St),
  (forall k, (k < n)%nat ->
     shouldContinue direction endHeight (start + increment direction * Z.of_nat k) = true) ->
  scan_loop St idx direction endHeight cb n start acc =
  fold_left (fun acc h => scan_body St idx cb h acc) (range_from (increment direction) start n) acc.
Proof.
  induction n as [|n IH]; intros start acc Hc; simpl; [reflexivity|].
  replace (shouldContinue direction endHeight start) with true
    by (symmetry; rewrite <- (Hc 0%nat) by lia; f_equal; lia).
  apply IH.
  intros k Hk.
  rewrite <- (Hc (Datatypes.S k)) by lia; f_equal; lia.
Qed.

Lemma fold_scan_body_fetched (cb : option (list IndexerTransactionData -> Z -> St -> St))
    (hs : list Z) :
  forall acc : ScanResult St,
  fetched (fold_left (fun acc h => scan_body St idx cb h acc) hs acc) = fetched acc ++ hs.
Proof.
  induction hs as [|h hs IH]; intros acc; simpl; [rewrite app_nil_r; reflexivity|].
  rewrite IH.
  assert (E : fetched (scan_body St idx cb h acc) = fetched acc ++ [h]).
  { unfold scan_body.
    destruct (getTransactionsByHeight idx h); [reflexivity|].
    destruct (negb _); [destruct cb|]; reflexivity. }
  rewrite E, <- app_assoc; reflexivity.
Qed.

(** A relation between callback states that every invocation of the
    callback establishes holds between the states before and after any run
    of the loop. *)
Lemma scan_loop_invariant (R : St -> St -> Prop)
    (Rrefl : forall st, R st st) (Rtrans : forall a b c, R a b -> R b c -> R a c)
    (f : list IndexerTransactionData -> Z -> St -> St)
    (Hf : forall h txs st, getTransactionsByHeight idx h = inr txs ->
          List.length txs <> 0%nat -> R st (f txs h st))
    (direction : Direction) (endHeight : Z) (n : nat) :
  forall (start : Z) (acc : ScanResult St),
  R (cbState acc) (cbState (scan_loop St idx direction endHeight (Some f) n start acc)).
Proof.
  induction n as [|n IH]; intros start acc; simpl; [apply Rrefl|].
  destruct (shouldContinue _ _ _); [|apply Rrefl].
  eapply Rtrans; [|apply IH].
  unfold scan_body.
  destruct (getTransactionsByHeight idx start) as [e|txs] eqn:E; simpl; [apply Rrefl|].
  destruct (negb (Nat.eqb (List.length txs) 0)) eqn:Hn; simpl; [|apply Rrefl].
  apply Hf; [exact E|].
  apply negb_true_iff, Nat.eqb_neq in Hn; exact Hn.
Qed.

Lemma scanBlocks_backward_fetched (cb : option (list IndexerTransactionData -> Z -> St -> St))
    (startHeight endHeight : Z) (st : St) :
  fetched (scanBlocks St idx startHeight endHeight Backward cb st) =
  range_from (-1) startHeight (Z.to_nat (startHeight - endHeight + 1)).
Proof.
  unfold scanBlocks, scan_fuel.
  rewrite scan_loop_fold.
  - rewrite fold_scan_body_fetched; reflexivity.
  - intros k Hk; cbn [shouldContinue increment]; apply Z.leb_le; lia.
Qed.

End ScanLemmas.

Lemma range_from_down_in (n : nat) :
  forall t h, In h (range_from (-1) t n) <-> t - Z.of_nat n < h <= t.
Proof.
  induction n as [|n IH]; intros t h; simpl; [split; [intros []|lia]|].
  rewrite IH; split.
  - intros [<- | H]; lia.
  - intros H. destruct (Z.eq_dec t h) as [<-|Hne]; [left; reflexivity | right; lia].
Qed.

Lemma range_from_down_sorted (n : nat) :
  forall t, StronglySorted Z.gt (range_from (-1) t n).
Proof.
  induction n as [|n IH]; intros t; simpl; constructor; [apply IH|].
  apply Forall_forall; intros x Hx.
  apply range_from_down_in in Hx; lia.
Qed.

Lemma strongly_sorted_gt_nodup (l : list Z) : StronglySorted Z.gt l -> NoDup l.
Proof.
  induction 1 as [|a l _ IH Hall]; constructor; [|exact IH].
  intros Hin. rewrite Forall_forall in Hall. specialize (Hall a Hin); lia.
Qed.

Lemma backward_scan_heights (idx : Indexer) (maxBlocks t : Z)
  (Ht : getLatestBlockHeight idx = inr t) :
  forall (St : Type) (cb : list IndexerTransactionData -> Z -> St -> St) (st : St)
         (res : ScanResult St),
  (scanBackwards St idx maxBlocks None st = inr res \/
   scanBackwardsWithCallback St idx maxBlocks cb None st = inr res) ->
  (forall h, In h (fetched res) <-> Z.max 0 (t - maxBlocks + 1) <= h <= t) /\
  NoDup (fetched res) /\
  StronglySorted Z.gt (fetched res) /\
  (t = 118 -> maxBlocks = 19 ->
   fetched res = [118; 117; 116; 115; 114; 113; 112; 111; 110; 109;
                  108; 107; 106; 105; 104; 103; 102; 101; 100]).
Proof.
  intros St cb st res Hres.
  assert (Hf : fetched res = range_from (-1) t (Z.to_nat (t - Z.max 0 (t - maxBlocks + 1) + 1))).
  { unfold scanBackwards, scanBackwardsWithCallback, resolveStart in Hres; rewrite Ht in Hres.
    destruct Hres as [Hres | Hres]; injection Hres as <-; apply scanBlocks_backward_fetched. }
  rewrite Hf.
  split; [|split; [|split]].
  - intros h; rewrite range_from_down_in; lia.
  - apply strongly_sorted_gt_nodup, range_from_down_sorted.
  - apply range_from_down_sorted.
  - intros -> ->; reflexivity.
Qed.

(** C2. Backward scan from the indexer tip [t] with budget [maxBlocks]
    (bulk or callback form): the heights requested are exactly those from
    [t] down to [max(0, t - maxBlocks + 1)], each once, in strictly
    descending order, whatever the indexer answers per height; for
    [t = 118] and [maxBlocks = 19] they are 118 down to 100. *)
Theorem C2_backward_scan_heights (idx : Indexer) (maxBlocks t : Z)
  (Ht : getLatestBlockHeight idx = inr t) :
  forall (St : Type) (cb : list IndexerTransactionData -> Z -> St -> St) (st : St)
         (res : ScanResult St),
  (scanBackwards St idx maxBlocks None st = inr res \/
   scanBackwardsWithCallback St idx maxBlocks cb None st = inr res) ->
  (forall h, In h (fetched res) <-> Z.max 0 (t - maxBlocks + 1) <= h <= t) /\
  NoDup (fetched res) /\
  StronglySorted Z.gt (fetched res) /\
  (t = 118 -> maxBlocks = 19 ->
   fetched res = [118; 117; 116; 115; 114; 113; 112; 111; 110; 109;
                  108; 107; 106; 105; 104; 103; 102; 101; 100]).
Proof. exact (backward_scan_heights idx maxBlocks t Ht). Qed.

(** Witness of C2: an indexer whose tip is 118 and which fails every
    per-height fetch. *)
Lemma C2_backward_scan_heights_witness :
  let idx := mkIndexer (Some (mkResponse 200 118)) (fun _ => None) in
  getLatestBlockHeight idx = inr 118 /\
  fetched (scanBlocks unit idx 118 100 Backward None tt) =
    [118; 117; 116; 115; 114; 113; 112; 111; 110; 109;
     108; 107; 106; 105; 104; 103; 102; 101; 100].
Proof.
  intros idx.
  assert (Ht : getLatestBlockHeight idx = inr 118) by reflexivity.
  split; [exact Ht|].
  exact (proj2 (proj2 (proj2 (C2_backward_scan_heights idx 19 118 Ht unit (fun _ _ st => st) tt
           (scanBlocks unit idx 118 100 Backward None tt) (or_introl eq_refl))))
           eq_refl eq_refl).
Defined.

(** C1 (claim as stated). A 429 answer is not retried: with the tip at 118
    and the indexer answering 429 at height 118, the backward scan requests
    118 once, moves straight on to 117, and never hands 118's transactions
    to the callback. *)
Lemma C1_rate_limited_height_not_retried :
  let tx := mkTxData "tx" 0 "bh" "02aa" [mkOutput "tx" 0 "aa" 1000 false] in
  let idx := mkIndexer (Some (mkResponse 200 118))
               (fun h => if h =? 118 then Some (mkResponse 429 [])
                         else Some (mkResponse 200 [tx])) in
  scanBackwardsWithCallback (list Z) idx 19 record_height None [] =
  inr (mkScanResult
         [118; 117; 116; 115; 114; 113; 112; 111; 110; 109;
          108; 107; 106; 105; 104; 103; 102; 101; 100]
         []
         [117; 116; 115; 114; 113; 112; 111; 110; 109;
          108; 107; 106; 105; 104; 103; 102; 101; 100]).
Proof. vm_compute; reflexivity. Qed.

(** C1 (amended). A per-height answer with a non-2xx status, 429 included,
    makes [executeGet] throw and the scan skip that height: it is requested
    exactly once, its transactions never reach the callback, and the scan
    still requests every other height of the range. *)
Theorem C1_rate_limited_height_skipped (idx : Indexer) (maxBlocks t h : Z)
  (resp : HttpResponse (list IndexerTransactionData))
  (Ht : getLatestBlockHeight idx = inr t)
  (Hr : transactionsResponse idx h = Some resp)
  (Hfail : status resp < 200 \/ 299 < status resp)
  (Hrange : Z.max 0 (t - maxBlocks + 1) <= h <= t)
  (res : ScanResult (list Z))
  (Hres : scanBackwardsWithCallback (list Z) idx maxBlocks record_height None [] = inr res) :
  count_occ Z.eq_dec (fetched res) h = 1%nat /\
  ~ In h (cbState res) /\
  (forall h', In h' (fetched res) <-> Z.max 0 (t - maxBlocks + 1) <= h' <= t).
Proof.
  destruct (backward_scan_heights idx maxBlocks t Ht (list Z) record_height [] res
              (or_intror Hres)) as (Hin & Hnd & _ & _).
  split; [|split; [|exact Hin]].
  - apply (proj1 (NoDup_count_occ' Z.eq_dec (fetched res)) Hnd), Hin; exact Hrange.
  - unfold scanBackwardsWithCallback, resolveStart in Hres; rewrite Ht in Hres.
    injection Hres as <-.
    unfold scanBlocks.
    apply (scan_loop_invariant (list Z) idx (fun a b => ~ In h a -> ~ In h b)); auto.
    + intros h' txs st Hget _ Hnot Hin'.
      unfold record_height in Hin'; apply in_app_or in Hin' as [Hin' | [<- | []]];
        [exact (Hnot Hin')|].
      unfold getTransactionsByHeight, executeGet in Hget; rewrite Hr in Hget.
      destruct ((200 <=? status resp) && (status resp <=? 299)) eqn:Hok; [|discriminate].
      apply andb_true_iff in Hok as [H1 H2]; apply Z.leb_le in H1, H2; lia.
Qed.

(** Witness of C1: the indexer of the counterexample, 429 at height 118. *)
Lemma C1_rate_limited_height_skipped_witness :
  let tx := mkTxData "tx" 0 "bh" "02aa" [mkOutput "tx" 0 "aa" 1000 false] in
  let idx := mkIndexer (Some (mkResponse 200 118))
               (fun h => if h =? 118 then Some (mkResponse 429 [])
                         else Some (mkResponse 200 [tx])) in
  let res := scanBlocks (list Z) idx 118 100 Backward (Some record_height) [] in
  count_occ Z.eq_dec (fetched res) 118 = 1%nat /\ ~ In 118 (cbState res).
Proof.
  intros tx idx res.
  destruct (C1_rate_limited_height_skipped idx 19 118 118 (mkResponse 429 []) eq_refl eq_refl
              (or_intror eq_refl) ltac:(simpl; lia) res eq_refl) as (H1 & H2 & _).
  split; [exact H1 | exact H2].
Defined.

(* ================================================================== *)
(** * Wallet *)

Section WalletLemmas.

Variable scanOutputsWithTweak :
  list byte -> list byte -> list byte -> list (list byte) -> option (list (string * list byte)).
Variable kd_keys : option (list byte * list byte).

Lemma appends_refl (r : UTXORepository.t) : appends r r.
Proof. exists []; rewrite app_nil_r; reflexivity. Qed.

Lemma appends_trans (a b c : UTXORepository.t) : appends a b -> appends b c -> appends a c.
Proof.
  intros [x Hx] [y Hy]; exists (x ++ y); rewrite Hy, Hx, app_assoc; reflexivity.
Qed.

Lemma add_all_appends (us : list SilentPaymentUTXO) :
  forall r, appends r (add_all us r).
Proof.
  induction us as [|u us IH]; intros r; simpl; [apply appends_refl|].
  eapply appends_trans; [|apply IH].
  destruct (add_appends u r) as [[H1 _] | H1]; [exists [u]; exact H1 | rewrite H1; apply appends_refl].
Qed.

Lemma commit_transactions_appends (txs : list IndexerTransactionData) (h : Z) :
  forall r, appends r (commit_transactions scanOutputsWithTweak kd_keys txs h r).
Proof.
  unfold commit_transactions.
  induction txs as [|tx txs IH]; intros r; simpl; [apply appends_refl|].
  eapply appends_trans; [|apply IH].
  destruct (scannable tx); [apply add_all_appends | apply appends_refl].
Qed.

Lemma processAndAddTransactions_eq (txs : list IndexerTransactionData) (h : Z) (w : Wallet) :
  processAndAddTransactions scanOutputsWithTweak kd_keys txs h w =
  mkWallet (commit_transactions scanOutputsWithTweak kd_keys txs h (utxoRepository w))
    (Z.max (lastScannedBlock w) h).
Proof.
  unfold processAndAddTransactions; f_equal.
  destruct (Z.gtb_spec h (lastScannedBlock w)); lia.
Qed.

Lemma scan_loop_wallet_progress (idx : Indexer) (d : Direction) (e : Z) (n : nat) (start : Z)
    (acc : ScanResult Wallet) :
  lastScannedBlock (cbState acc) <=
  lastScannedBlock (cbState (scan_loop Wallet idx d e
     (Some (processAndAddTransactions scanOutputsWithTweak kd_keys)) n start acc)).
Proof.
  apply (scan_loop_invariant Wallet idx (fun a b => lastScannedBlock a <= lastScannedBlock b)).
  - intros; lia.
  - intros; lia.
  - intros h txs st _ _; rewrite processAndAddTransactions_eq; simpl; lia.
Qed.

Lemma scan_loop_wallet_appends (idx : Indexer) (d : Direction) (e : Z) (n : nat) (start : Z)
    (acc : ScanResult Wallet) :
  appends (utxoRepository (cbState acc))
    (utxoRepository (cbState (scan_loop Wallet idx d e
       (Some (processAndAddTransactions scanOutputsWithTweak kd_keys)) n start acc))).
Proof.
  apply (scan_loop_invariant Wallet idx (fun a b => appends (utxoRepository a) (utxoRepository b))).
  - intros; apply appends_refl.
  - intros a b c; apply appends_trans.
  - intros h txs st _ _; rewrite processAndAddTransactions_eq; simpl.
    apply commit_transactions_appends.
Qed.

End WalletLemmas.

(** C8 (claim as stated). [lastScannedBlock] is not monotone across every
    wallet operation: [setLastScannedBlock] and [clearCache] lower it. *)
Lemma C8_progress_lowered_by_setter_and_clear :
  let prim := fun (_ _ _ : list byte) (_ : list (list byte)) => @None (list (string * list byte)) in
  let w := mkWallet UTXORepository.empty 118 in
  lastScannedBlock (wallet_step prim None None (OpSetLastScannedBlock 100) w) = 100 /\
  lastScannedBlock (wallet_step prim None None OpClearCache w) = 0 /\
  lastScannedBlock (wallet_step prim None None (OpSetLastScannedBlock 100) w) < lastScannedBlock w.
Proof. simpl; repeat split; lia. Qed.

(** C10. The number [scanForPayments] returns is the growth of
    [getAll().length]: the records the scan stores are appended to the
    repository, the count is the number of those that are unspent, and the
    balance and [getUTXOs()] grow by the unspent ones only; a stored record
    flagged spent is in the repository but in neither [getUTXOs()] nor the
    balance, and adding a fresh spent match stores it while leaving
    [getAll()] and the balance unchanged. *)
Theorem C10_scan_count_counts_unspent
    (scanOutputsWithTweak : list byte -> list byte -> list byte -> list (list byte) ->
                            option (list (string * list byte)))
    (kd_keys : option (list byte * list byte)) (idx : Indexer) (maxBlocks : Z)
    (w w' : Wallet) (n : Z)
    (Hscan : scanForPayments scanOutputsWithTweak kd_keys (Some idx) maxBlocks w = inr (n, w')) :
  n = unspentCount w' - unspentCount w /\
  (exists added,
     UTXORepository.utxos (utxoRepository w') = UTXORepository.utxos (utxoRepository w) ++ added /\
     n = Z.of_nat (List.length (filter (fun u => negb (isSpent u)) added)) /\
     getUTXOs w' = getUTXOs w ++ filter (fun u => negb (isSpent u)) added /\
     getBalance w' = getBalance w + unspent_sum added /\
     (forall u, In u added -> isSpent u = true ->
        In u (UTXORepository.utxos (utxoRepository w')) /\ ~ In u (getUTXOs w'))) /\
  (forall (u : SilentPaymentUTXO) (r : UTXORepository.t),
     (forall x, In x (UTXORepository.utxos r) -> txid x <> txid u \/ vout x <> vout u) ->
     isSpent u = true ->
     In u (UTXORepository.utxos (snd (UTXORepository.add u r))) /\
     UTXORepository.getAll (snd (UTXORepository.add u r)) = UTXORepository.getAll r /\
     UTXORepository.getBalance (snd (UTXORepository.add u r)) = UTXORepository.getBalance r).
Proof.
  unfold scanForPayments, scanBackwardsWithCallback in Hscan.
  destruct (resolveStart idx None) as [err|st]; [discriminate|].
  injection Hscan as Hn Hw.
  pose proof (scan_loop_wallet_appends scanOutputsWithTweak kd_keys idx Backward
                (Z.max 0 (st - maxBlocks + 1)) (scan_fuel Backward st (Z.max 0 (st - maxBlocks + 1)))
                st (mkScanResult [] [] w)) as [added Hadd].
  unfold scanBlocks in Hw, Hn; rewrite Hw in Hadd, Hn; simpl in Hadd.
  assert (HgetAll : getUTXOs w' = getUTXOs w ++ filter (fun u => negb (isSpent u)) added).
  { unfold getUTXOs, UTXORepository.getAll; rewrite Hadd, filter_app; reflexivity. }
  split; [exact (eq_sym Hn)|].
  split.
  - exists added. split; [exact Hadd|]. split; [|split; [exact HgetAll|split]].
    + rewrite <- Hn; unfold unspentCount.
      change (UTXORepository.getAll (utxoRepository w')) with (getUTXOs w').
      change (UTXORepository.getAll (utxoRepository w)) with (getUTXOs w).
      rewrite HgetAll, length_app; lia.
    + unfold getBalance; rewrite !getBalance_unspent_sum, Hadd, unspent_sum_app; reflexivity.
    + intros u Hu Hs; split.
      * rewrite Hadd; apply in_or_app; right; exact Hu.
      * unfold getUTXOs, UTXORepository.getAll; rewrite filter_In, Hs; intros [_ H]; discriminate.
  - intros u r Hfresh Hs.
    rewrite (add_fresh u r Hfresh); simpl.
    unfold UTXORepository.getAll; rewrite !getBalance_unspent_sum; simpl.
    rewrite filter_app, unspent_sum_app; simpl; rewrite Hs; simpl.
    rewrite app_nil_r; repeat split; [|lia].
    apply in_or_app; right; left; reflexivity.
Qed.

(** Witness of C10: an indexer at tip 100 whose block 100 carries one
    output; the primitive reports it as a match, and the indexer flags it
    spent. The scan returns 0 and stores the record. *)
Lemma C10_scan_count_counts_unspent_witness :
  let tweak33 := hex_encode (repeat Byte.x02 33) in
  let tx := mkTxData "tx" 0 "bh" tweak33 [mkOutput "tx" 0 "aa" 1000 true] in
  let idx := mkIndexer (Some (mkResponse 200 100)) (fun _ => Some (mkResponse 200 [tx])) in
  let prim := fun (_ _ _ : list byte) (_ : list (list byte)) => Some [("02aa"%string, [Byte.x01])] in
  let w := mkWallet UTXORepository.empty 0 in
  exists n w', scanForPayments prim (Some ([], [])) (Some idx) 1 w = inr (n, w') /\
    n = 0 /\ List.length (UTXORepository.utxos (utxoRepository w')) = 1%nat /\
    n = unspentCount w' - unspentCount w.
Proof.
  intros tweak33 tx idx prim w.
  exists 0, (mkWallet (UTXORepository.mkRepo
                [mkUTXO "tx" 0 1000 "aa" 100 "bh" [Byte.x01] true]
                [mkUTXOSer "tx" 0 1000 "aa" 100 "bh" "01" true]) 100).
  assert (Hs : scanForPayments prim (Some ([], [])) (Some idx) 1 w =
               inr (0, mkWallet (UTXORepository.mkRepo
                [mkUTXO "tx" 0 1000 "aa" 100 "bh" [Byte.x01] true]
                [mkUTXOSer "tx" 0 1000 "aa" 100 "bh" "01" true]) 100))
    by (vm_compute; reflexivity).
  split; [exact Hs|]. split; [reflexivity|]. split; [reflexivity|].
  exact (proj1 (C10_scan_count_counts_unspent prim (Some ([], [])) idx 1 w _ 0 Hs)).
Defined.

(* ================================================================== *)
(** * Further properties of the code *)

Lemma to_nat_nonpos (z : Z) : z <= 0 -> Z.to_nat z = 0%nat.
Proof. destruct z; simpl; lia. Qed.

Lemma blocks_loop_range (resp : Z -> option (HttpResponse SilentBlock)) (endHeight : Z) (n : nat) :
  forall (start : Z) (acc : list SilentBlock),
  start + Z.of_nat n - 1 <= endHeight ->
  blocks_loop resp endHeight n start acc =
  acc ++ flat_map (silent_block_at resp) (range_from 1 start n).
Proof.
  induction n as [|n IH]; intros start acc Hn; simpl; [rewrite app_nil_r; reflexivity|].
  replace (start <=? endHeight) with true by (symmetry; apply Z.leb_le; lia).
  rewrite IH by lia.
  unfold silent_block_at; destruct (getSilentBlockByHeight resp start); simpl;
    [reflexivity | rewrite <- app_assoc; reflexivity].
Qed.

(** [getSilentBlocksRange(start, end)] returns, in ascending height order,
    the blocks of the heights [start..end] whose fetch succeeds, a failed
    height being left out; nothing when [end < start]. *)
Theorem X2_silent_blocks_range (resp : Z -> option (HttpResponse SilentBlock))
    (startHeight endHeight : Z) :
  getSilentBlocksRange resp startHeight endHeight =
  flat_map (silent_block_at resp)
    (range_from 1 startHeight (Z.to_nat (endHeight - startHeight + 1))).
Proof.
  unfold getSilentBlocksRange.
  destruct (Z.le_gt_cases (endHeight - startHeight + 1) 0) as [Hle|Hgt].
  - rewrite (to_nat_nonpos _ Hle); reflexivity.
  - rewrite blocks_loop_range; [reflexivity|]. rewrite Z2Nat.id; lia.
Qed.

Section ScanShape.

Variable St : Type.
Variable idx : Indexer.

Lemma fold_scan_body_none (hs : list Z) :
  forall acc : ScanResult St,
  fold_left (fun acc h => scan_body St idx None h acc) hs acc =
  mkScanResult (fetched acc ++ hs) (allTransactions acc ++ flat_map (block_transactions idx) hs)
    (cbState acc).
Proof.
  induction hs as [|h hs IH]; intros [f a st]; simpl.
  - rewrite !app_nil_r; reflexivity.
  - rewrite IH; unfold scan_body, block_transactions; simpl.
    destruct (getTransactionsByHeight idx h) as [e|txs]; simpl.
    + rewrite <- !app_assoc; reflexivity.
    + destruct (Nat.eqb (List.length txs) 0) eqn:E; simpl.
      * apply Nat.eqb_eq, length_zero_iff_nil in E; subst txs.
        rewrite <- !app_assoc; reflexivity.
      * rewrite <- !app_assoc; reflexivity.
Qed.

Lemma fold_scan_body_some (f : list IndexerTransactionData -> Z -> St -> St) (hs : list Z) :
  forall acc : ScanResult St,
  fold_left (fun acc h => scan_body St idx (Some f) h acc) hs acc =
  mkScanResult (fetched acc ++ hs) (allTransactions acc) (callback_run idx f hs (cbState acc)).
Proof.
  induction hs as [|h hs IH]; intros [fe a st]; simpl.
  - rewrite !app_nil_r; reflexivity.
  - rewrite IH; unfold scan_body, callback_run; simpl.
    destruct (getTransactionsByHeight idx h) as [e|txs]; simpl;
      [|destruct (Nat.eqb (List.length txs) 0)]; simpl; rewrite <- !app_assoc; reflexivity.
Qed.

Lemma scan_fuel_continue (d : Direction) (s e : Z) (k : nat) :
  (k < scan_fuel d s e)%nat -> shouldContinue d e (s + increment d * Z.of_nat k) = true.
Proof.
  intros Hk; apply Nat2Z.inj_lt in Hk.
  destruct d; unfold scan_fuel in Hk; cbn [shouldContinue increment]; apply Z.leb_le;
    [destruct (Z.le_gt_cases 0 (e - s + 1)) | destruct (Z.le_gt_cases 0 (s - e + 1))];
    [rewrite Z2Nat.id in Hk by lia | rewrite to_nat_nonpos in Hk by lia
    |rewrite Z2Nat.id in Hk by lia | rewrite to_nat_nonpos in Hk by lia]; lia.
Qed.

End ScanShape.

Lemma scanBlocks_none_eq (St : Type) (idx : Indexer) (startHeight endHeight : Z)
    (direction : Direction) (st : St) :
  let hs := range_from (increment direction) startHeight
              (scan_fuel direction startHeight endHeight) in
  scanBlocks St idx startHeight endHeight direction None st =
  mkScanResult hs (flat_map (block_transactions idx) hs) st.
Proof.
  intros hs; unfold scanBlocks.
  rewrite scan_loop_fold by (intros; apply scan_fuel_continue; assumption).
  rewrite fold_scan_body_none; reflexivity.
Qed.

Lemma scanBlocks_some_eq (St : Type) (idx : Indexer) (startHeight endHeight : Z)
    (direction : Direction) (f : list IndexerTransactionData -> Z -> St -> St) (st : St) :
  let hs := range_from (increment direction) startHeight
              (scan_fuel direction startHeight endHeight) in
  scanBlocks St idx startHeight endHeight direction (Some f) st =
  mkScanResult hs [] (callback_run idx f hs st).
Proof.
  intros hs; unfold scanBlocks.
  rewrite scan_loop_fold by (intros; apply scan_fuel_continue; assumption).
  rewrite fold_scan_body_some; reflexivity.
Qed.

(** [scanBlocks] without a callback requests each height from the start to
    the end height once, stepping by the direction, returns the
    concatenation of the transaction lists of those heights, in that order
    (a failed height contributing none), and leaves the callback state
    untouched. *)
Theorem X3_scanBlocks_collects (St : Type) (idx : Indexer) (startHeight endHeight : Z)
    (direction : Direction) (st : St) :
  let hs := range_from (increment direction) startHeight
              (scan_fuel direction startHeight endHeight) in
  scanBlocks St idx startHeight endHeight direction None st =
  mkScanResult hs (flat_map (block_transactions idx) hs) st.
Proof. exact (scanBlocks_none_eq St idx startHeight endHeight direction st). Qed.

(** [scanBlocks] with a callback requests the same heights, collects no
    transactions, and calls the callback in scan order exactly at the
    heights whose fetch succeeds with a non-empty list. *)
Theorem X4_scanBlocks_callback (St : Type) (idx : Indexer) (startHeight endHeight : Z)
    (direction : Direction) (f : list IndexerTransactionData -> Z -> St -> St) (st : St) :
  let hs := range_from (increment direction) startHeight
              (scan_fuel direction startHeight endHeight) in
  scanBlocks St idx startHeight endHeight direction (Some f) st =
  mkScanResult hs [] (callback_run idx f hs st).
Proof. exact (scanBlocks_some_eq St idx startHeight endHeight direction f st). Qed.

Lemma backward_span (t maxBlocks : Z) :
  Z.to_nat (t - Z.max 0 (t - maxBlocks + 1) + 1) = Z.to_nat (Z.min maxBlocks (t + 1)).
Proof. f_equal; lia. Qed.

(** [scanBackwards] and [scanBackwardsWithCallback] fail exactly when
    resolving the start height (the explicit one, or the indexer tip) fails;
    otherwise they scan [min(maxBlocks, start + 1)] heights (none when that
    is not positive) downward from the start. *)
Theorem X5_scanBackwards_budget (St : Type) (idx : Indexer) (maxBlocks : Z)
    (fromHeight : option Z) (f : list IndexerTransactionData -> Z -> St -> St) (st : St) :
  scanBackwards St idx maxBlocks fromHeight st =
    match resolveStart idx fromHeight with
    | inl e => inl e
    | inr t =>
        let hs := range_from (-1) t (Z.to_nat (Z.min maxBlocks (t + 1))) in
        inr (mkScanResult hs (flat_map (block_transactions idx) hs) st)
    end /\
  scanBackwardsWithCallback St idx maxBlocks f fromHeight st =
    match resolveStart idx fromHeight with
    | inl e => inl e
    | inr t =>
        let hs := range_from (-1) t (Z.to_nat (Z.min maxBlocks (t + 1))) in
        inr (mkScanResult hs [] (callback_run idx f hs st))
    end.
Proof.
  unfold scanBackwards, scanBackwardsWithCallback.
  destruct (resolveStart idx fromHeight) as [e|t]; [split; reflexivity|].
  rewrite scanBlocks_none_eq, scanBlocks_some_eq; cbn [scan_fuel increment].
  rewrite backward_span; split; reflexivity.
Qed.

(** With [maxBlocks <= 0], [scanForPayments] scans no block: it fails
    exactly when the tip request fails, and otherwise returns 0 with the
    wallet unchanged. *)
Theorem X6_scanForPayments_no_budget
    (scanOutputsWithTweak : list byte -> list byte -> list byte -> list (list byte) ->
                            option (list (string * list byte)))
    (kd_keys : option (list byte * list byte)) (idx : Indexer) (maxBlocks : Z) (w : Wallet)
    (Hm : maxBlocks <= 0) :
  scanForPayments scanOutputsWithTweak kd_keys (Some idx) maxBlocks w =
  match getLatestBlockHeight idx with
  | inl e => inl (Fetch e)
  | inr _ => inr (0, w)
  end.
Proof.
  unfold scanForPayments, scanBackwardsWithCallback, resolveStart.
  destruct (getLatestBlockHeight idx) as [e|t]; [reflexivity|].
  rewrite scanBlocks_some_eq; cbn [scan_fuel increment].
  rewrite backward_span, (to_nat_nonpos (Z.min maxBlocks (t + 1))) by lia.
  cbn; f_equal; f_equal; lia.
Qed.

Lemma X6_scanForPayments_no_budget_witness :
  let idx := mkIndexer (Some (mkResponse 200 100)) (fun _ => None) in
  let prim := fun (_ _ _ : list byte) (_ : list (list byte)) => @None (list (string * list byte)) in
  let w := mkWallet UTXORepository.empty 5 in
  0 <= 0 /\ scanForPayments prim None (Some idx) 0 w = inr (0, w).
Proof.
  intros idx prim w; split; [lia|].
  rewrite (X6_scanForPayments_no_budget prim None idx 0 w ltac:(lia)); reflexivity.
Defined.

(** [scanForPaymentsForward] with an end height below the start height
    returns 0 and leaves the wallet unchanged. *)
Theorem X7_forward_scan_empty_range
    (scanOutputsWithTweak : list byte -> list byte -> list byte -> list (list byte) ->
                            option (list (string * list byte)))
    (kd_keys : option (list byte * list byte)) (idx : Indexer) (startHeight endHeight : Z)
    (w : Wallet) (He : endHeight < startHeight) :
  scanForPaymentsForward scanOutputsWithTweak kd_keys (Some idx) startHeight (Some endHeight) w =
  inr (0, w).
Proof.
  unfold scanForPaymentsForward, resolveStart; cbn [scan_fuel].
  rewrite (to_nat_nonpos (endHeight - startHeight + 1)) by lia.
  cbn; f_equal; f_equal; lia.
Qed.

Lemma X7_forward_scan_empty_range_witness :
  let idx := mkIndexer (Some (mkResponse 200 100)) (fun _ => None) in
  let prim := fun (_ _ _ : list byte) (_ : list (list byte)) => @None (list (string * list byte)) in
  let w := mkWallet UTXORepository.empty 5 in
  99 < 100 /\ scanForPaymentsForward prim None (Some idx) 100 (Some 99) w = inr (0, w).
Proof.
  intros idx prim w; split; [lia|].
  exact (X7_forward_scan_empty_range prim None idx 100 99 w ltac:(lia)).
Defined.

Section ProcessLemmas.

Variable scanOutputsWithTweak :
  list byte -> list byte -> list byte -> list (list byte) -> option (list (string * list byte)).
Variable kd_keys : option (list byte * list byte).

Lemma collect_matches_provenance (tx : IndexerTransaction) (matched : list (string * list byte))
    (u : SilentPaymentUTXO) :
  In u (collect_matches tx matched) ->
  exists k o, In (k, tweak u) matched /\ In o (outputs tx) /\
    o_pubKey o = substring 2 (String.length k - 2) k /\
    u = mkUTXO (t_txid tx) (o_vout o) (o_value o) (o_pubKey o)
          (t_blockHeight tx) (t_blockHash tx) (tweak u) (o_isSpent o).
Proof.
  unfold collect_matches.
  match goal with |- In u (fold_left ?F matched []) -> _ => set (G := F) end.
  enough (Gen : forall acc, In u (fold_left G matched acc) -> In u acc \/
    exists k o, In (k, tweak u) matched /\ In o (outputs tx) /\
      o_pubKey o = substring 2 (String.length k - 2) k /\
      u = mkUTXO (t_txid tx) (o_vout o) (o_value o) (o_pubKey o)
            (t_blockHeight tx) (t_blockHash tx) (tweak u) (o_isSpent o)).
  { intros H; destruct (Gen [] H) as [[]|P]; exact P. }
  induction matched as [|[k tw] matched IH]; intros acc H; simpl in H; [left; exact H|].
  destruct (IH _ H) as [Hacc | (k' & o & H1 & H2 & H3 & H4)];
    [|right; exists k', o; repeat split; auto; right; exact H1].
  unfold G in Hacc; cbv beta iota in Hacc.
  destruct (find (fun o => String.eqb (o_pubKey o) (substring 2 (String.length k - 2) k))
              (outputs tx)) as [o|] eqn:Hf; [|left; exact Hacc].
  apply in_app_or in Hacc as [Hacc | [Hu | []]]; [left; exact Hacc|].
  right; subst u; simpl.
  apply find_some in Hf as [Ho Heq]; apply String.eqb_eq in Heq.
  exists k, o; repeat split; auto; left; reflexivity.
Qed.

End ProcessLemmas.

(** Every record [process] returns comes from a match of the scanning
    primitive, called with the wallet keys on a 33-byte decoded tweak: its
    tweak is the match's, its [txid], [blockHeight] and [blockHash] are the
    transaction's, and its [vout], [value], [pubKey] and [isSpent] are those
    of an output of the transaction whose [pubKey] is the matched key
    without its first two characters. *)
Theorem X8_process_match_provenance
    (scanOutputsWithTweak : list byte -> list byte -> list byte -> list (list byte) ->
                            option (list (string * list byte)))
    (kd_keys : option (list byte * list byte)) (tx : IndexerTransaction) (u : SilentPaymentUTXO)
    (Hin : In u (process scanOutputsWithTweak kd_keys tx)) :
  exists scanPrivateKey spendPublicKey matched k o,
    kd_keys = Some (scanPrivateKey, spendPublicKey) /\
    List.length (hex_decode (scanTweak tx)) = 33%nat /\
    scanOutputsWithTweak scanPrivateKey spendPublicKey (hex_decode (scanTweak tx))
      (map (fun output => hex_decode ("02" ++ o_pubKey output)) (outputs tx)) = Some matched /\
    In (k, tweak u) matched /\ In o (outputs tx) /\
    o_pubKey o = substring 2 (String.length k - 2) k /\
    u = mkUTXO (t_txid tx) (o_vout o) (o_value o) (o_pubKey o)
          (t_blockHeight tx) (t_blockHash tx) (tweak u) (o_isSpent o).
Proof.
  unfold process, process_body in Hin.
  destruct kd_keys as [[sk pk]|]; [|destruct Hin].
  destruct (Nat.eqb (List.length (hex_decode (scanTweak tx))) 33) eqn:Hl; cbn [negb] in Hin;
    [|destruct Hin].
  destruct (scanOutputsWithTweak sk pk _ _) as [matched|] eqn:Hm; [|destruct Hin].
  destruct matched as [|e rest]; [destruct Hin|].
  destruct (collect_matches_provenance tx (e :: rest) u Hin) as (k & o & H1 & H2 & H3 & H4).
  exists sk, pk, (e :: rest), k, o; repeat split; auto.
  apply Nat.eqb_eq; exact Hl.
Qed.

Lemma X8_process_match_provenance_witness :
  let tx := mkIndexerTx 100 "bh" "tx" (hex_encode (repeat Byte.x02 33))
              [mkOutput "tx" 0 "aa" 1000 false] in
  let prim := fun (_ _ _ : list byte) (_ : list (list byte)) =>
                Some [("02aa"%string, [Byte.x01])] in
  let u := mkUTXO "tx" 0 1000 "aa" 100 "bh" [Byte.x01] false in
  In u (process prim (Some ([], [])) tx) /\
  exists o, In o (outputs tx) /\ o_value o = value u /\ t_txid tx = txid u.
Proof.
  intros tx prim u.
  assert (Hin : In u (process prim (Some ([], [])) tx)) by (vm_compute; left; reflexivity).
  split; [exact Hin|].
  destruct (X8_process_match_provenance prim (Some ([], [])) tx u Hin)
    as (sk & pk & m & k & o & _ & _ & _ & _ & Ho & _ & Hu).
  exists o; split; [exact Ho|].
  rewrite Hu; split; reflexivity.
Defined.

Lemma existsb_key (u : SilentPaymentUTXO) (l : list SilentPaymentUTXO) :
  existsb (fun x => String.eqb (txid x) (txid u) && Z.eqb (vout x) (vout u)) l = true <->
  In (utxo_key u) (map utxo_key l).
Proof.
  rewrite existsb_exists, in_map_iff; unfold utxo_key.
  split; intros [x [H1 H2]]; exists x; split; auto.
  - apply andb_true_iff in H2 as [Ht Hv].
    apply String.eqb_eq in Ht; apply Z.eqb_eq in Hv; rewrite Ht, Hv; reflexivity.
  - injection H1 as Ht Hv; rewrite Ht, Hv, String.eqb_refl, Z.eqb_refl; reflexivity.
Qed.

Lemma add_by_key (u : SilentPaymentUTXO) (r : UTXORepository.t) :
  UTXORepository.add u r =
  if in_dec key_eq_dec (utxo_key u) (map utxo_key (UTXORepository.utxos r)) then (false, r)
  else (true, UTXORepository.mkRepo (UTXORepository.utxos r ++ [u])
                (UTXORepository.utxosSerializable r ++ [UTXORepository.to_serializable u])).
Proof.
  unfold UTXORepository.add.
  destruct (in_dec key_eq_dec _ _) as [Hin|Hout].
  - apply existsb_key in Hin; rewrite Hin; reflexivity.
  - destruct (existsb _ _) eqn:E; [apply existsb_key in E; contradiction | reflexivity].
Qed.

Lemma add_key_present (u : SilentPaymentUTXO) (r : UTXORepository.t) :
  In (utxo_key u) (map utxo_key (UTXORepository.utxos r)) -> UTXORepository.add u r = (false, r).
Proof.
  intros H; rewrite add_by_key; destruct (in_dec _ _ _); [reflexivity | contradiction].
Qed.

Lemma add_keys (u : SilentPaymentUTXO) (r : UTXORepository.t) :
  map utxo_key (UTXORepository.utxos (snd (UTXORepository.add u r))) =
  map utxo_key (UTXORepository.utxos r) ++
    (if in_dec key_eq_dec (utxo_key u) (map utxo_key (UTXORepository.utxos r)) then []
     else [utxo_key u]).
Proof.
  rewrite add_by_key; destruct (in_dec _ _ _); simpl;
    [rewrite app_nil_r | rewrite map_app]; reflexivity.
Qed.

Lemma add_all_app (a b : list SilentPaymentUTXO) (r : UTXORepository.t) :
  add_all (a ++ b) r = add_all b (add_all a r).
Proof. unfold add_all; apply fold_left_app. Qed.

Lemma add_all_keys_incl (us : list SilentPaymentUTXO) :
  forall r k, In k (map utxo_key (UTXORepository.utxos r)) ->
  In k (map utxo_key (UTXORepository.utxos (add_all us r))).
Proof.
  induction us as [|u us IH]; intros r k Hk; simpl; [exact Hk|].
  apply IH; rewrite add_keys; apply in_or_app; left; exact Hk.
Qed.

Lemma add_all_covers (us : list SilentPaymentUTXO) :
  forall r u, In u us -> In (utxo_key u) (map utxo_key (UTXORepository.utxos (add_all us r))).
Proof.
  induction us as [|x us IH]; intros r u Hu; [destruct Hu|].
  destruct Hu as [<- | Hu]; simpl; [|apply IH; exact Hu].
  apply add_all_keys_incl; rewrite add_keys.
  destruct (in_dec _ _ _) as [Hin|_]; [apply in_or_app; left; exact Hin|].
  apply in_or_app; right; left; reflexivity.
Qed.

Lemma add_all_nodup (us : list SilentPaymentUTXO) :
  forall r, NoDup (map utxo_key (UTXORepository.utxos r)) ->
  NoDup (map utxo_key (UTXORepository.utxos (add_all us r))).
Proof.
  induction us as [|u us IH]; intros r Hnd; simpl; [exact Hnd|].
  apply IH; rewrite add_keys.
  destruct (in_dec _ _ _) as [_|Hout]; [rewrite app_nil_r; exact Hnd|].
  apply NoDup_app; [exact Hnd | constructor; [intros []|constructor] |].
  intros k Hk [<- | []]; exact (Hout Hk).
Qed.

Lemma add_all_stable (us : list SilentPaymentUTXO) :
  forall r, (forall u, In u us -> In (utxo_key u) (map utxo_key (UTXORepository.utxos r))) ->
  add_all us r = r.
Proof.
  induction us as [|u us IH]; intros r H; simpl; [reflexivity|].
  rewrite (add_key_present u r (H u (or_introl eq_refl))); simpl.
  apply IH; intros x Hx; apply H; right; exact Hx.
Qed.

Lemma add_all_idempotent (us : list SilentPaymentUTXO) (r : UTXORepository.t) :
  add_all us (add_all us r) = add_all us r.
Proof. apply add_all_stable; intros u Hu; apply add_all_covers; exact Hu. Qed.

Section CommitLemmas.

Variable scanOutputsWithTweak :
  list byte -> list byte -> list byte -> list (list byte) -> option (list (string * list byte)).
Variable kd_keys : option (list byte * list byte).

Lemma commit_transactions_add_all (txs : list IndexerTransactionData) (h : Z) :
  forall r, commit_transactions scanOutputsWithTweak kd_keys txs h r =
            add_all (block_matches scanOutputsWithTweak kd_keys txs h) r.
Proof.
  unfold commit_transactions, block_matches.
  induction txs as [|tx txs IH]; intros r; simpl; [reflexivity|].
  rewrite IH, add_all_app; destruct (scannable tx); reflexivity.
Qed.

End CommitLemmas.

(** [add] inserts exactly when no stored record has the same (txid, vout)
    and returns whether it did. An inserted record is appended to both the
    runtime and the persisted list, and enters [getAll()] and the balance
    only when it is not spent; a duplicate leaves the repository unchanged. *)
Theorem X10_add_effect (u : SilentPaymentUTXO) (r : UTXORepository.t) :
  let fresh := if in_dec key_eq_dec (utxo_key u) (map utxo_key (UTXORepository.utxos r))
               then false else true in
  let counted := fresh && negb (isSpent u) in
  fst (UTXORepository.add u r) = fresh /\
  snd (UTXORepository.add u r) =
    (if fresh
     then UTXORepository.mkRepo (UTXORepository.utxos r ++ [u])
            (UTXORepository.utxosSerializable r ++ [UTXORepository.to_serializable u])
     else r) /\
  UTXORepository.getAll (snd (UTXORepository.add u r)) =
    UTXORepository.getAll r ++ (if counted then [u] else []) /\
  UTXORepository.getBalance (snd (UTXORepository.add u r)) =
    UTXORepository.getBalance r + (if counted then value u else 0).
Proof.
  intros fresh counted; unfold counted, fresh; rewrite add_by_key.
  destruct (in_dec _ _ _); simpl; rewrite ?app_nil_r; [repeat split; lia|].
  split; [reflexivity|]; split; [reflexivity|].
  unfold UTXORepository.getAll; rewrite !getBalance_unspent_sum.
  simpl; rewrite filter_app, unspent_sum_app; simpl.
  destruct (isSpent u); simpl; split; rewrite ?app_nil_r; lia || reflexivity.
Qed.

(** Adding a sequence of records to a repository whose (txid, vout) keys
    are distinct keeps them distinct, stores a record with the key of each
    added record, and keeps the previous records as a prefix. *)
Theorem X11_add_all_unique_keys (us : list SilentPaymentUTXO) (r : UTXORepository.t)
    (Hnd : NoDup (map utxo_key (UTXORepository.utxos r))) :
  NoDup (map utxo_key (UTXORepository.utxos (add_all us r))) /\
  (forall u, In u us -> In (utxo_key u) (map utxo_key (UTXORepository.utxos (add_all us r)))) /\
  appends r (add_all us r).
Proof.
  split; [apply add_all_nodup; exact Hnd|].
  split; [intros u Hu; apply add_all_covers; exact Hu | apply add_all_appends].
Qed.

Lemma X11_add_all_unique_keys_witness :
  let u1 := mkUTXO "tx" 0 1000 "aa" 100 "bh" [] false in
  let u2 := mkUTXO "tx" 0 2000 "bb" 101 "bh2" [] true in
  NoDup (map utxo_key (UTXORepository.utxos UTXORepository.empty)) /\
  NoDup (map utxo_key (UTXORepository.utxos (add_all [u1; u2; u1] UTXORepository.empty))).
Proof.
  intros u1 u2.
  assert (H0 : NoDup (map utxo_key (UTXORepository.utxos UTXORepository.empty))) by constructor.
  split; [exact H0|].
  exact (proj1 (X11_add_all_unique_keys [u1; u2; u1] UTXORepository.empty H0)).
Defined.

(** Processing the same block transactions at the same height a second
    time changes nothing: no record is added and [lastScannedBlock] stays. *)
Theorem X12_reprocessing_block_idempotent
    (scanOutputsWithTweak : list byte -> list byte -> list byte -> list (list byte) ->
                            option (list (string * list byte)))
    (kd_keys : option (list byte * list byte))
    (txs : list IndexerTransactionData) (h : Z) (w : Wallet) :
  let w' := processAndAddTransactions scanOutputsWithTweak kd_keys txs h w in
  processAndAddTransactions scanOutputsWithTweak kd_keys txs h w' = w'.
Proof.
  intros w'; unfold w'.
  rewrite !processAndAddTransactions_eq; simpl.
  rewrite !commit_transactions_add_all, add_all_idempotent.
  f_equal; lia.
Qed.

(** Processing a block's transactions in two parts equals processing them
    at once, and transactions without a scan tweak or without outputs have
    no effect. *)
Theorem X13_block_processing_composes
    (scanOutputsWithTweak : list byte -> list byte -> list byte -> list (list byte) ->
                            option (list (string * list byte)))
    (kd_keys : option (list byte * list byte))
    (txs1 txs2 : list IndexerTransactionData) (h : Z) (w : Wallet) :
  processAndAddTransactions scanOutputsWithTweak kd_keys (txs1 ++ txs2) h w =
    processAndAddTransactions scanOutputsWithTweak kd_keys txs2 h
      (processAndAddTransactions scanOutputsWithTweak kd_keys txs1 h w) /\
  processAndAddTransactions scanOutputsWithTweak kd_keys txs1 h w =
    processAndAddTransactions scanOutputsWithTweak kd_keys (filter scannable txs1) h w.
Proof.
  rewrite !processAndAddTransactions_eq; simpl.
  rewrite !commit_transactions_add_all; unfold block_matches.
  rewrite flat_map_app, add_all_app; split; f_equal; try lia.
  f_equal; clear; induction txs1 as [|tx txs IH]; simpl; [reflexivity|].
  destruct (scannable tx) eqn:E; simpl; rewrite ?E, IH; reflexivity.
Qed.

Lemma fold_add_all_flat_map {A : Type} (f : A -> list SilentPaymentUTXO) (hs : list A) :
  forall r, fold_left (fun r h => add_all (f h) r) hs r = add_all (flat_map f hs) r.
Proof.
  induction hs as [|h hs IH]; intros r; simpl; [reflexivity|].
  rewrite IH, add_all_app; reflexivity.
Qed.

Lemma callback_run_wallet
    (scanOutputsWithTweak : list byte -> list byte -> list byte -> list (list byte) ->
                            option (list (string * list byte)))
    (kd_keys : option (list byte * list byte)) (idx : Indexer) (hs : list Z) :
  forall w,
  callback_run idx (processAndAddTransactions scanOutputsWithTweak kd_keys) hs w =
  mkWallet
    (add_all (flat_map (fun h => block_matches scanOutputsWithTweak kd_keys
                                   (block_transactions idx h) h) hs) (utxoRepository w))
    (fold_left Z.max (live_heights idx hs) (lastScannedBlock w)).
Proof.
  induction hs as [|h hs IH]; intros w; [destruct w; reflexivity|].
  unfold callback_run in *; simpl; unfold live_heights, block_transactions in *; simpl.
  destruct (getTransactionsByHeight idx h) as [e|txs]; simpl; [apply IH|].
  destruct (Nat.eqb (List.length txs) 0) eqn:E; simpl.
  - apply Nat.eqb_eq, length_zero_iff_nil in E; subst txs; apply IH.
  - rewrite IH, processAndAddTransactions_eq, commit_transactions_add_all; simpl.
    rewrite add_all_app; reflexivity.
Qed.

(** When the tip request succeeds, [scanForPayments] adds the matches of
    the scanned blocks, newest block first, sets [lastScannedBlock] to the
    greatest of its old value and the heights whose fetch returned a
    non-empty list, and returns the growth of the unspent count. *)
Theorem X14_scanForPayments_result
    (scanOutputsWithTweak : list byte -> list byte -> list byte -> list (list byte) ->
                            option (list (string * list byte)))
    (kd_keys : option (list byte * list byte)) (idx : Indexer) (maxBlocks : Z) (w : Wallet) (t : Z)
    (Ht : getLatestBlockHeight idx = inr t) :
  let hs := range_from (-1) t (Z.to_nat (Z.min maxBlocks (t + 1))) in
  let w' := mkWallet
              (add_all (flat_map (fun h => block_matches scanOutputsWithTweak kd_keys
                                             (block_transactions idx h) h) hs)
                 (utxoRepository w))
              (fold_left Z.max (live_heights idx hs) (lastScannedBlock w)) in
  scanForPayments scanOutputsWithTweak kd_keys (Some idx) maxBlocks w =
  inr (unspentCount w' - unspentCount w, w').
Proof.
  intros hs w'.
  unfold scanForPayments, scanBackwardsWithCallback, resolveStart; rewrite Ht.
  rewrite scanBlocks_some_eq; cbn [scan_fuel increment cbState].
  rewrite backward_span, callback_run_wallet; reflexivity.
Qed.

Lemma X14_scanForPayments_result_witness :
  let tweak33 := hex_encode (repeat Byte.x02 33) in
  let tx := mkTxData "tx" 0 "bh" tweak33 [mkOutput "tx" 0 "aa" 1000 false] in
  let idx := mkIndexer (Some (mkResponse 200 101))
               (fun h => if h =? 100 then Some (mkResponse 200 [tx]) else Some (mkResponse 200 [])) in
  let prim := fun (_ _ _ : list byte) (_ : list (list byte)) => Some [("02aa"%string, [Byte.x01])] in
  let w := mkWallet UTXORepository.empty 0 in
  getLatestBlockHeight idx = inr 101 /\
  scanForPayments prim (Some ([], [])) (Some idx) 5 w =
  inr (1, mkWallet (UTXORepository.mkRepo
                      [mkUTXO "tx" 0 1000 "aa" 100 "bh" [Byte.x01] false]
                      [mkUTXOSer "tx" 0 1000 "aa" 100 "bh" "01" false]) 100).
Proof.
  intros tweak33 tx idx prim w.
  assert (Ht : getLatestBlockHeight idx = inr 101) by reflexivity.
  split; [exact Ht|].
  rewrite (X14_scanForPayments_result prim (Some ([], [])) idx 5 w 101 Ht).
  vm_compute; reflexivity.
Defined.

(** [scanForPaymentsForward(start, end)] adds the matches of the blocks
    [start..end], oldest first, sets [lastScannedBlock] to the greatest of
    its old value and the heights whose fetch returned a non-empty list,
    and returns the growth of the unspent count. *)
Theorem X15_scanForPaymentsForward_result
    (scanOutputsWithTweak : list byte -> list byte -> list byte -> list (list byte) ->
                            option (list (string * list byte)))
    (kd_keys : option (list byte * list byte)) (idx : Indexer) (startHeight endHeight : Z)
    (w : Wallet) :
  let hs := range_from 1 startHeight (Z.to_nat (endHeight - startHeight + 1)) in
  let w' := mkWallet
              (add_all (flat_map (fun h => block_matches scanOutputsWithTweak kd_keys
                                             (block_transactions idx h) h) hs)
                 (utxoRepository w))
              (fold_left Z.max (live_heights idx hs) (lastScannedBlock w)) in
  scanForPaymentsForward scanOutputsWithTweak kd_keys (Some idx) startHeight (Some endHeight) w =
  inr (unspentCount w' - unspentCount w, w').
Proof.
  intros hs w'.
  unfold scanForPaymentsForward, resolveStart.
  change (scan_loop Wallet idx Forward endHeight
            (Some (processAndAddTransactions scanOutputsWithTweak kd_keys))
            (scan_fuel Forward startHeight endHeight) startHeight (mkScanResult [] [] w))
    with (scanBlocks Wallet idx startHeight endHeight Forward
            (Some (processAndAddTransactions scanOutputsWithTweak kd_keys)) w).
  rewrite scanBlocks_some_eq; cbn [scan_fuel increment cbState].
  rewrite callback_run_wallet; reflexivity.
Qed.

Lemma callback_run_apply_block
    (scanOutputsWithTweak : list byte -> list byte -> list byte -> list (list byte) ->
                            option (list (string * list byte)))
    (kd_keys : option (list byte * list byte)) (idx : Indexer) (hs : list Z) :
  forall w,
  callback_run idx (processAndAddTransactions scanOutputsWithTweak kd_keys) hs w =
  fold_left (apply_block scanOutputsWithTweak kd_keys) (processed_blocks idx hs) w.
Proof.
  induction hs as [|h hs IH]; intros w; [reflexivity|].
  unfold callback_run, processed_blocks in *; simpl.
  destruct (getTransactionsByHeight idx h) as [e|txs]; simpl; [apply IH|].
  destruct (Nat.eqb (List.length txs) 0); simpl; [apply IH|].
  rewrite IH, processAndAddTransactions_eq; reflexivity.
Qed.

(* ================================================================== *)
(** * Scan progress *)

(** C8 (amended). No scan lowers [lastScannedBlock] (nor does any read-only
    operation), and a scan with an initialised indexer is, block by block,
    the processing of the blocks it fetches successfully with a non-empty
    transaction list, in scan order: each first commits all of its
    transactions' matches to the repository and then sets the progress to
    the greater of its current value and the block's height. A scan whose
    start height cannot be resolved, and a read-only operation, leave the
    wallet unchanged. [setLastScannedBlock] and [clearCache] are the
    exceptions to monotonicity. *)
Theorem C8_scans_never_lower_progress
    (scanOutputsWithTweak : list byte -> list byte -> list byte -> list (list byte) ->
                            option (list (string * list byte)))
    (kd_keys : option (list byte * list byte)) (defaultIndexer : option Indexer)
    (o : wallet_op) (w : Wallet)
    (Ho : match o with OpSetLastScannedBlock _ | OpClearCache => False | _ => True end) :
  lastScannedBlock w <= lastScannedBlock (wallet_step scanOutputsWithTweak kd_keys defaultIndexer o w) /\
  (forall idx, defaultIndexer = Some idx ->
   match o with
   | OpScanForPayments maxBlocks =>
       wallet_step scanOutputsWithTweak kd_keys defaultIndexer o w =
       match getLatestBlockHeight idx with
       | inl _ => w
       | inr t =>
           fold_left (apply_block scanOutputsWithTweak kd_keys)
             (processed_blocks idx (range_from (-1) t (Z.to_nat (Z.min maxBlocks (t + 1))))) w
       end
   | OpScanForPaymentsForward startHeight endHeight =>
       wallet_step scanOutputsWithTweak kd_keys defaultIndexer o w =
       match resolveStart idx endHeight with
       | inl _ => w
       | inr e =>
           fold_left (apply_block scanOutputsWithTweak kd_keys)
             (processed_blocks idx (range_from 1 startHeight (Z.to_nat (e - startHeight + 1)))) w
       end
   | OpSetLastScannedBlock _ | OpClearCache => True
   | OpGetUTXOs | OpGetBalance | OpGetLastScannedBlock =>
       wallet_step scanOutputsWithTweak kd_keys defaultIndexer o w = w
   end).
Proof.
  split.
  - destruct o as [m | s e | h | | | |]; simpl; try lia; try contradiction.
    + unfold scanForPayments.
      destruct defaultIndexer as [idx|]; [|lia].
      unfold scanBackwardsWithCallback.
      destruct (resolveStart idx None) as [err|st]; [lia|].
      apply (scan_loop_wallet_progress scanOutputsWithTweak kd_keys idx Backward _ _ st
               (mkScanResult [] [] w)).
    + unfold scanForPaymentsForward.
      destruct defaultIndexer as [idx|]; [|lia].
      destruct (resolveStart idx e) as [err|en]; [lia|].
      apply (scan_loop_wallet_progress scanOutputsWithTweak kd_keys idx Forward _ _ s
               (mkScanResult [] [] w)).
  - intros idx ->.
    destruct o as [m | s e | h | | | |]; try exact I; try reflexivity.
    + unfold wallet_step, scanForPayments, scanBackwardsWithCallback, resolveStart.
      destruct (getLatestBlockHeight idx) as [err|t]; [reflexivity|].
      rewrite scanBlocks_some_eq; cbn [scan_fuel increment cbState].
      rewrite backward_span, callback_run_apply_block; reflexivity.
    + unfold wallet_step, scanForPaymentsForward.
      destruct (resolveStart idx e) as [err|en]; [reflexivity|].
      change (scan_loop Wallet idx Forward en
                (Some (processAndAddTransactions scanOutputsWithTweak kd_keys))
                (scan_fuel Forward s en) s (mkScanResult [] [] w))
        with (scanBlocks Wallet idx s en Forward
                (Some (processAndAddTransactions scanOutputsWithTweak kd_keys)) w).
      rewrite scanBlocks_some_eq; cbn [scan_fuel increment cbState].
      rewrite callback_run_apply_block; reflexivity.
Qed.

(** Witness of C8: a backward scan of 5 blocks from the tip 101, where block
    100 carries a matching output and block 101 is empty; the scan
    processes block 100 only, stores its match and moves the progress from
    0 to 100. *)
Lemma C8_scans_never_lower_progress_witness :
  let tweak33 := hex_encode (repeat Byte.x02 33) in
  let tx := mkTxData "tx" 0 "bh" tweak33 [mkOutput "tx" 0 "aa" 1000 false] in
  let idx := mkIndexer (Some (mkResponse 200 101))
               (fun h => if h =? 100 then Some (mkResponse 200 [tx]) else Some (mkResponse 200 [])) in
  let prim := fun (_ _ _ : list byte) (_ : list (list byte)) => Some [("02aa"%string, [Byte.x01])] in
  let w := mkWallet UTXORepository.empty 0 in
  let w' := wallet_step prim (Some ([], [])) (Some idx) (OpScanForPayments 5) w in
  lastScannedBlock w <= lastScannedBlock w' /\
  w' = fold_left (apply_block prim (Some ([], []))) [([tx], 100)] w /\
  lastScannedBlock w' = 100 /\
  List.length (UTXORepository.utxos (utxoRepository w')) = 1%nat.
Proof.
  intros tweak33 tx idx prim w w'.
  destruct (C8_scans_never_lower_progress prim (Some ([], [])) (Some idx) (OpScanForPayments 5) w I)
    as [H1 H2].
  specialize (H2 idx eq_refl).
  split; [exact H1|].
  unfold w'; rewrite H2.
  split; [vm_compute; reflexivity|].
  split; vm_compute; reflexivity.
Defined.
